(** * cosmos migration checker: a shallow embedding of [main.go]

    The program creates a CodeQL database for a source directory, runs a
    fixed query pack over it, decodes the SARIF report and prints every
    finding with the source line it points at and a caret under the
    reported column.

    Go values are modelled as follows.
    - [int] is [Z]; [string] and [[]byte] are [string] (a sequence of
      8-bit characters); a slice is a [list]; a nil-able pointer or error
      is an [option].
    - The file system is a finite map from path to node.
    - Standard output is the list of strings written, one entry per call
      of [fmt.Printf] / [fmt.Println].
    - External processes, the random names of temporary directories
      and the grammar of JSON are parameters ([System]).

    Left out: the standard error stream, file permissions and other
    failures of the operating system after a file is open, and the
    limits of memory. *)

From stdpp Require Import gmap strings list fin_maps pretty.
From Stdlib Require Import ZArith Ascii Lia.

Open Scope Z_scope.

(** ** Strings *)

Module Str.

Definition LF : ascii := "010".
Definition CR : ascii := "013".
Definition ESC : ascii := "027".

Definition nl : string := String LF EmptyString.

(** [len(s)] *)
Definition len (s : string) : Z := Z.of_nat (String.length s).

(** [n] copies of [s], one after the other. *)
Fixpoint replicate (n : nat) (s : string) : string :=
  match n with
  | O => EmptyString
  | S n' => s +:+ replicate n' s
  end.

(** [strings.Join(elems, sep)] *)
Fixpoint join (sep : string) (elems : list string) : string :=
  match elems with
  | [] => EmptyString
  | [e] => e
  | e :: rest => e +:+ sep +:+ join sep rest
  end.

(** The verb [%d] applied to an [int]. *)
Definition itoa (n : Z) : string := pretty n.

(** [strings.HasPrefix(s, prefix)] *)
Fixpoint hasPrefix (prefix s : string) : bool :=
  match prefix, s with
  | EmptyString, _ => true
  | String a p', String b s' => if decide (a = b) then hasPrefix p' s' else false
  | String _ _, EmptyString => false
  end.

(** [strings.Contains(s, substr)] *)
Fixpoint contains (substr s : string) : bool :=
  hasPrefix substr s ||
  match s with
  | EmptyString => false
  | String _ s' => contains substr s'
  end.

(** Whether the last byte of [s] is [c]. *)
Fixpoint endsWith (c : ascii) (s : string) : bool :=
  match s with
  | EmptyString => false
  | String d EmptyString => bool_decide (d = c)
  | String _ s' => endsWith c s'
  end.

End Str.

(** ** Errors *)

(** The error values the program can meet.  [wrapError] is what
    [fmt.Errorf] builds for a format with [%w]: the formatted message and
    the wrapped error. *)
Inductive error : Type :=
| PathError (op path reason : string)
| ErrTooLong
| ErrNoProgress
| ProcessError (msg : string)
| SyntaxError (msg : string)
| UnmarshalTypeError (value type : string)
| errorString (msg : string)
| wrapError (msg : string) (err : error).

(** The [Error()] method. *)
Definition Error (e : error) : string :=
  match e with
  | PathError op path reason => op +:+ " " +:+ path +:+ ": " +:+ reason
  | ErrTooLong => "bufio.Scanner: token too long"
  | ErrNoProgress => "multiple Read calls return no data or error"
  | ProcessError msg => msg
  | SyntaxError msg => msg
  | UnmarshalTypeError value type =>
      "json: cannot unmarshal " +:+ value +:+ " into Go value of type " +:+ type
  | errorString msg => msg
  | wrapError msg _ => msg
  end.

(** [errors.Unwrap] *)
Definition Unwrap (e : error) : option error :=
  match e with
  | wrapError _ err => Some err
  | _ => None
  end.

(** [fmt.Errorf(prefix + "%w", err)] *)
Definition Errorf_w (prefix : string) (err : error) : error :=
  wrapError (prefix +:+ Error err) err.

(** ** The file system *)

Inductive node : Type :=
| Dir
| File (data : string).

Definition ENOENT : string := "no such file or directory".
Definition EISDIR : string := "is a directory".

(** ** [bufio.Scanner] with the default split function [ScanLines] *)

Module Scanner.

(** [bufio.MaxScanTokenSize]: the scanner's buffer never grows beyond
    this many bytes. *)
Definition MaxScanTokenSize : Z := 64 * 1024.

(** [bytes.IndexByte(data, '\n')], returning the bytes before the first
    line feed and, when there is one, the bytes after it. *)
Fixpoint cutLF (data : string) : string * option string :=
  match data with
  | EmptyString => (EmptyString, None)
  | String c rest =>
      if decide (c = Str.LF) then (EmptyString, Some rest)
      else let '(line, more) := cutLF rest in (String c line, more)
  end.

(** [dropCR]: drop one trailing carriage return. *)
Fixpoint dropCR (data : string) : string :=
  match data with
  | EmptyString => EmptyString
  | String c EmptyString => if decide (c = Str.CR) then EmptyString else data
  | String c rest => String c (dropCR rest)
  end.

(** One call of [Scan] on the unread input.  [Token text rest]: [Scan]
    returned true, [Text()] is [text] and [rest] is still unread.
    [Halt err]: [Scan] returned false and [Err()] is [err].

    A line and its line feed must fit in the buffer, and a last line
    without line feed must leave room for the read that reports the end
    of the file; either way a line of [MaxScanTokenSize] bytes or more
    stops the scanner with [ErrTooLong]. *)
Inductive scanned : Type :=
| Token (text : string) (rest : string)
| Halt (err : option error).

Definition Scan (input : string) : scanned :=
  match cutLF input with
  | (line, Some rest) =>
      if Str.len line <? MaxScanTokenSize then Token (dropCR line) rest
      else Halt (Some ErrTooLong)
  | (line, None) =>
      if decide (line = EmptyString) then Halt None
      else if Str.len line <? MaxScanTokenSize then Token (dropCR line) EmptyString
      else Halt (Some ErrTooLong)
  end.

End Scanner.

(** ** [readSpecificLine] *)

(** A Go function's pair of results [(string, error)]. *)
Definition result : Type := string * option error.

(** The loop [for scanner.Scan() { ... }] and the code after it.  [fuel]
    bounds the number of iterations; [None] means the bound was reached.
    Every token consumes a byte, so one more than the length of the
    input is always enough ([scanLoop_total]). *)
Fixpoint scanLoop (fuel : nat) (input : string) (currentLine targetLine : Z)
  : option result :=
  match fuel with
  | O => None
  | S fuel' =>
      match Scanner.Scan input with
      | Scanner.Token text rest =>
          if currentLine =? targetLine then Some (text, None)
          else scanLoop fuel' rest (currentLine + 1) targetLine
      | Scanner.Halt (Some err) => Some (EmptyString, Some err)
      | Scanner.Halt None =>
          Some (EmptyString,
                Some (errorString ("file has less than " +:+ Str.itoa targetLine +:+ " lines")))
      end
  end.

Definition readSpecificLine (fs : gmap string node) (filePath : string) (targetLine : Z)
  : result :=
  match fs !! filePath with
  | None => (EmptyString, Some (PathError "open" filePath ENOENT))
  | Some Dir => (EmptyString, Some (PathError "read" filePath EISDIR))
  | Some (File data) =>
      match scanLoop (S (String.length data)) data 1 targetLine with
      | Some r => r
      | None => (EmptyString, Some ErrNoProgress)
      end
  end.

(** ** The lines of a file, as the specification counts them *)

(** A file is a sequence of lines, each ended by a line feed, except
    that the last line may lack it.  [fileLines] gives the text of each
    line without its line feed. *)
Fixpoint fileLines (data : string) : list string :=
  match data with
  | EmptyString => []
  | String c rest =>
      if decide (c = Str.LF) then EmptyString :: fileLines rest
      else match fileLines rest with
           | [] => [String c EmptyString]
           | l :: ls => String c l :: ls
           end
  end.

Definition lineCount (data : string) : Z := Z.of_nat (length (fileLines data)).

(** The text of line [n], counting from 1. *)
Definition lineAt (data : string) (n : Z) : option string :=
  if n <? 1 then None else fileLines data !! Z.to_nat (n - 1).

(** What the scan loop computes, read off the lines of the file: the
    loop stops at the first line that does not fit the buffer, returns
    the target line without its carriage return, and reports a short
    file when the lines run out. *)
Fixpoint readLines (ls : list string) (currentLine targetLine : Z) : result :=
  match ls with
  | [] =>
      (EmptyString,
       Some (errorString ("file has less than " +:+ Str.itoa targetLine +:+ " lines")))
  | l :: ls' =>
      if Str.len l <? Scanner.MaxScanTokenSize then
        if currentLine =? targetLine then (Scanner.dropCR l, None)
        else readLines ls' (currentLine + 1) targetLine
      else (EmptyString, Some ErrTooLong)
  end.

(** A line the scanner can hold. *)
Definition fits (l : string) : Prop := Str.len l < Scanner.MaxScanTokenSize.


(** ** The decoded report *)

Record SarifArtifactLocation : Type := { Uri : string }.

Record SarifRegion : Type := {
  StartLine : Z;
  StartColumn : Z;
  EndLine : Z
}.

Record SarifPhysicalLocation : Type := {
  ArtifactLocation : SarifArtifactLocation;
  Region : SarifRegion
}.

Record SarifLocation : Type := { PhysicalLocation : SarifPhysicalLocation }.

Record SarifMessage : Type := { Text : string }.

Record SarifResult : Type := {
  Message : SarifMessage;
  Locations : list SarifLocation
}.

Record SarifRun : Type := { Results : list SarifResult }.

Record Sarif : Type := { Runs : list SarifRun }.

(** ** Statements that print, return early or panic *)

(** How control leaves a statement: on to the next statement, out of
    the function by [return], or by a panic. *)
Inductive flow (A : Type) : Type :=
| Next (a : A)
| Return (err : option error)
| Panic (msg : string).
Arguments Next {A} a.
Arguments Return {A} err.
Arguments Panic {A} msg.

(** A statement: what it writes to standard output and how it ends. *)
Definition prog (A : Type) : Type := list string * flow A.

#[global] Instance prog_ret : MRet prog := λ A a, ([], Next a).

#[global] Instance prog_bind : MBind prog := λ A B k m,
  match m with
  | (out, Next a) => let '(out', f) := k a in (out ++ out', f)
  | (out, Return err) => (out, Return err)
  | (out, Panic msg) => (out, Panic msg)
  end.

(** [for _, x := range xs { body }] *)
Fixpoint rangeOver {A : Type} (xs : list A) (body : A → prog unit) : prog unit :=
  match xs with
  | [] => mret tt
  | x :: xs' => body x ;; rangeOver xs' body
  end.

(** How a call of a function of result type [error] ends. *)
Inductive outcome : Type :=
| Returned (err : option error)
| Panicked (msg : string).

(** A function body always leaves by [return] or by a panic. *)
Definition call (body : prog Empty_set) : list string * outcome :=
  match body with
  | (out, Next a) => match a with end
  | (out, Return err) => (out, Returned err)
  | (out, Panic msg) => (out, Panicked msg)
  end.

(** [fmt.Printf] and [fmt.Println], applied to the text they write. *)
Definition Print (text : string) : prog unit := ([text], Next tt).
Definition Println (text : string) : prog unit := Print (text +:+ Str.nl).

(** [strings.Repeat].  The count of a one-byte string cannot overflow
    the length of the result, so only the negative count panics. *)
Definition Repeat (s : string) (count : Z) : prog string :=
  if count <? 0 then ([], Panic "strings: negative Repeat count")
  else ([], Next (Str.replicate (Z.to_nat count) s)).

(** ** Colours ([github.com/fatih/color]) *)

Module color.

Definition Reset : Z := 0.
Definition FgRed : Z := 31.
Definition FgYellow : Z := 33.

Definition escape : string := String Str.ESC EmptyString.

(** [color.New(attr).Sprint(s)]: the text between the escape sequence
    that selects the attribute and the one that resets it, or the text
    alone when colours are off ([color.NoColor]: the output is not a
    terminal, or NO_COLOR is set). *)
Definition Sprint (NoColor : bool) (attr : Z) (s : string) : string :=
  if NoColor then s
  else (escape +:+ "[" +:+ Str.itoa attr +:+ "m")
         +:+ s +:+ (escape +:+ "[" +:+ Str.itoa Reset +:+ "m").

(** What a terminal shows of a text: the escape sequences, from the
    escape character to the letter m that ends them, are not shown. *)
Fixpoint shown (inSequence : bool) (s : string) : string :=
  match s with
  | EmptyString => EmptyString
  | String c s' =>
      if inSequence then shown (negb (bool_decide (c = "m"%char))) s'
      else if decide (c = Str.ESC) then shown true s'
      else String c (shown false s')
  end.

End color.

(** ** [printFindings] *)

Definition printFindings (NoColor : bool) (fs : gmap string node) (sarif : Sarif)
  : list string * outcome :=
  let red := color.FgRed in
  let yellow := color.FgYellow in
  call (
    rangeOver (Runs sarif) (λ run,
      rangeOver (Results run) (λ result,
        rangeOver (Locations result) (λ location,
          let uri := Uri (ArtifactLocation (PhysicalLocation location)) in
          let line := StartLine (Region (PhysicalLocation location)) in
          let column := StartColumn (Region (PhysicalLocation location)) in
          let '(code, err) := readSpecificLine fs uri line in
          match err with
          | Some err => ([], Return (Some (Errorf_w "failed to read file: " err)))
          | None =>
              Print (uri +:+ ":" +:+ Str.itoa line +:+ ":" +:+ Str.itoa column
                       +:+ ": " +:+ color.Sprint NoColor red (Text (Message result))
                       +:+ Str.nl) ;;
              Print ("  " +:+ Str.itoa line +:+ ": " +:+ code +:+ Str.nl) ;;
              spaces ← Repeat " " column ;
              Println (spaces +:+ color.Sprint NoColor yellow "^")
          end))) ;;
    ([], Return None)).

(** The (result, location) pairs of a report: runs in order, the
    results of each run in order, the locations of each result in
    order. *)
Definition findings (sarif : Sarif) : list (SarifResult * SarifLocation) :=
  flat_map (λ run,
    flat_map (λ result, map (λ location, (result, location)) (Locations result))
             (Results run))
    (Runs sarif).

(** The three lines of one finding whose source line is [code]. *)
Definition headline (NoColor : bool) (result : SarifResult) (location : SarifLocation)
  : string :=
  Uri (ArtifactLocation (PhysicalLocation location)) +:+ ":"
    +:+ Str.itoa (StartLine (Region (PhysicalLocation location))) +:+ ":"
    +:+ Str.itoa (StartColumn (Region (PhysicalLocation location))) +:+ ": "
    +:+ color.Sprint NoColor color.FgRed (Text (Message result)) +:+ Str.nl.

Definition snippet (location : SarifLocation) (code : string) : string :=
  "  " +:+ Str.itoa (StartLine (Region (PhysicalLocation location))) +:+ ": "
    +:+ code +:+ Str.nl.

Definition caret (NoColor : bool) (location : SarifLocation) : string :=
  (Str.replicate (Z.to_nat (StartColumn (Region (PhysicalLocation location)))) " "
     +:+ color.Sprint NoColor color.FgYellow "^") +:+ Str.nl.

(** The source line a location points at. *)
Definition sourceLine (fs : gmap string node) (location : SarifLocation) : result :=
  readSpecificLine fs (Uri (ArtifactLocation (PhysicalLocation location)))
                   (StartLine (Region (PhysicalLocation location))).

(** One pass of the innermost loop body. *)
Definition renderLocation (NoColor : bool) (fs : gmap string node)
  (finding : SarifResult * SarifLocation) : prog unit :=
  let '(result, location) := finding in
  match sourceLine fs location with
  | (_, Some err) => ([], Return (Some (Errorf_w "failed to read file: " err)))
  | (code, None) =>
      if StartColumn (Region (PhysicalLocation location)) <? 0 then
        ([headline NoColor result location; snippet location code],
         Panic "strings: negative Repeat count")
      else
        ([headline NoColor result location; snippet location code;
          caret NoColor location], Next tt)
  end.

(** A finding is rendered in full when its source line can be read and
    its column is not negative. *)
Definition readable (fs : gmap string node) (finding : SarifResult * SarifLocation) : Prop :=
  snd (sourceLine fs (snd finding)) = None.

Definition startColumn (finding : SarifResult * SarifLocation) : Z :=
  StartColumn (Region (PhysicalLocation (snd finding))).

Definition renders (fs : gmap string node) (finding : SarifResult * SarifLocation) : Prop :=
  readable fs finding ∧ 0 ≤ startColumn finding.

(** The diagnostic block of a finding. *)
Definition block (NoColor : bool) (fs : gmap string node)
  (finding : SarifResult * SarifLocation) : list string :=
  [ headline NoColor (fst finding) (snd finding);
    snippet (snd finding) (fst (sourceLine fs (snd finding)));
    caret NoColor (snd finding) ].


(** ** JSON documents and [encoding/json] *)

(** A JSON document after the syntax check: strings are unquoted, a
    number is kept as its literal, the members of an object are in the
    order of the document. *)
#[warnings="-register-all"] Inductive json : Type :=
| JNull
| JBool (b : bool)
| JNumber (literal : string)
| JString (s : string)
| JArray (elems : list json)
| JObject (members : list (string * json)).

Module Json.

(** The [Value] field of an [UnmarshalTypeError]. *)
Definition describe (j : json) : string :=
  match j with
  | JNull => "null"
  | JBool _ => "bool"
  | JNumber literal => "number"
  | JString _ => "string"
  | JArray _ => "array"
  | JObject _ => "object"
  end.

(** [Unmarshal] keeps the first type error and goes on decoding. *)
Definition firstError (e1 e2 : option error) : option error :=
  match e1 with
  | Some _ => e1
  | None => e2
  end.

(** A decoder stores a document into a Go value that already holds
    something, and reports the type error it met, if any. *)
Definition decoder (T : Type) : Type := json → T → T * option error.

(** *** Numbers *)

Definition digit (c : ascii) : option Z :=
  let n := Z.of_nat (nat_of_ascii c) in
  if (48 <=? n) && (n <=? 57) then Some (n - 48) else None.

Fixpoint digits (acc : Z) (s : string) : option Z :=
  match s with
  | EmptyString => Some acc
  | String c s' =>
      match digit c with
      | Some d => digits (10 * acc + d) s'
      | None => None
      end
  end.

(** [strconv.ParseInt(s, 10, 64)], [None] standing for its errors. *)
Definition ParseInt (s : string) : option Z :=
  match s with
  | EmptyString => None
  | String "-" EmptyString => None
  | String "+" EmptyString => None
  | String "-" s' =>
      match digits 0 s' with
      | Some n => if n <=? 2 ^ 63 then Some (- n) else None
      | None => None
      end
  | String "+" s' =>
      match digits 0 s' with
      | Some n => if n <? 2 ^ 63 then Some n else None
      | None => None
      end
  | _ =>
      match digits 0 s with
      | Some n => if n <? 2 ^ 63 then Some n else None
      | None => None
      end
  end.

Definition intInto : decoder Z := λ j v,
  match j with
  | JNull => (v, None)
  | JNumber literal =>
      match ParseInt literal with
      | Some n => (n, None)
      | None => (v, Some (UnmarshalTypeError ("number " +:+ literal) "int"))
      end
  | _ => (v, Some (UnmarshalTypeError (describe j) "int"))
  end.

Definition stringInto : decoder string := λ j v,
  match j with
  | JNull => (v, None)
  | JString s => (s, None)
  | _ => (v, Some (UnmarshalTypeError (describe j) "string"))
  end.

(** *** Slices *)

(** Each element of the array is decoded into a fresh element. *)
Fixpoint elemsInto {T : Type} (zero : T) (elem : decoder T) (elems : list json)
  : list T * option error :=
  match elems with
  | [] => ([], None)
  | j :: rest =>
      let '(x, e) := elem j zero in
      let '(xs, e') := elemsInto zero elem rest in
      (x :: xs, firstError e e')
  end.

Definition sliceInto {T : Type} (type : string) (zero : T) (elem : decoder T)
  : decoder (list T) := λ j v,
  match j with
  | JNull => ([], None)
  | JArray elems => elemsInto zero elem elems
  | _ => (v, Some (UnmarshalTypeError (describe j) type))
  end.

(** *** Structs *)

Definition toLower (c : ascii) : ascii :=
  let n := nat_of_ascii c in
  if (65 <=? n)%nat && (n <=? 90)%nat then ascii_of_nat (n + 32) else c.

(** Whether a key of the document names a field, letter case apart.
    The field names of this program are ASCII letters; a key matches a
    name when its letters do, in either case, where the long s (U+017F)
    counts as an s and the Kelvin sign (U+212A) as a k. *)
Fixpoint foldEq (name key : string) : bool :=
  match name, key with
  | EmptyString, EmptyString => true
  | EmptyString, String _ _ => false
  | String _ _, EmptyString => false
  | String c name', String d key' =>
      if bool_decide (toLower c = toLower d) then foldEq name' key'
      else if bool_decide (toLower c = "s"%char) then
        match key with
        | String "197" (String "191" key'') => foldEq name' key''
        | _ => false
        end
      else if bool_decide (toLower c = "k"%char) then
        match key with
        | String "226" (String "132" (String "170" key'')) => foldEq name' key''
        | _ => false
        end
      else false
  end.

(** The field a key stands for: the one of that very name, or else the
    first one whose name matches letter case apart. *)
Definition findField {A : Type} (fields : list (string * A)) (key : string) : option A :=
  match find (λ f, bool_decide (fst f = key)) fields with
  | Some f => Some (snd f)
  | None =>
      match find (λ f, foldEq (fst f) key) fields with
      | Some f => Some (snd f)
      | None => None
      end
  end.

(** The members of an object, stored one after the other; a key that
    names no field is skipped with its value. *)
Fixpoint membersInto {T : Type} (fields : list (string * decoder T))
  (members : list (string * json)) (v : T) : T * option error :=
  match members with
  | [] => (v, None)
  | (key, value) :: rest =>
      match findField fields key with
      | Some field =>
          let '(v', e) := field value v in
          let '(v'', e') := membersInto fields rest v' in
          (v'', firstError e e')
      | None => membersInto fields rest v
      end
  end.

Definition structInto {T : Type} (type : string) (fields : list (string * decoder T))
  : decoder T := λ j v,
  match j with
  | JNull => (v, None)
  | JObject members => membersInto fields members v
  | _ => (v, Some (UnmarshalTypeError (describe j) type))
  end.

(** Decoding into one field of a struct. *)
Definition fieldInto {T F : Type} (get : T → F) (set : F → T → T) (d : decoder F)
  : decoder T := λ j v,
  let '(x, e) := d j (get v) in (set x v, e).

(** *** The types of the report *)

Definition zeroRegion : SarifRegion :=
  {| StartLine := 0; StartColumn := 0; EndLine := 0 |}.
Definition zeroArtifactLocation : SarifArtifactLocation := {| Uri := EmptyString |}.
Definition zeroPhysicalLocation : SarifPhysicalLocation :=
  {| ArtifactLocation := zeroArtifactLocation; Region := zeroRegion |}.
Definition zeroLocation : SarifLocation := {| PhysicalLocation := zeroPhysicalLocation |}.
Definition zeroMessage : SarifMessage := {| Text := EmptyString |}.
Definition zeroResult : SarifResult := {| Message := zeroMessage; Locations := [] |}.
Definition zeroRun : SarifRun := {| Results := [] |}.
Definition zeroSarif : Sarif := {| Runs := [] |}.

Definition regionFields : list (string * decoder SarifRegion) :=
  [ ("StartLine",
     fieldInto StartLine
       (λ n r, {| StartLine := n; StartColumn := StartColumn r; EndLine := EndLine r |})
       intInto);
    ("StartColumn",
     fieldInto StartColumn
       (λ n r, {| StartLine := StartLine r; StartColumn := n; EndLine := EndLine r |})
       intInto);
    ("EndLine",
     fieldInto EndLine
       (λ n r, {| StartLine := StartLine r; StartColumn := StartColumn r; EndLine := n |})
       intInto) ].
Definition regionInto : decoder SarifRegion :=
  structInto "main.SarifRegion" regionFields.

Definition artifactLocationFields : list (string * decoder SarifArtifactLocation) :=
  [ ("Uri", fieldInto Uri (λ s _, {| Uri := s |}) stringInto) ].
Definition artifactLocationInto : decoder SarifArtifactLocation :=
  structInto "main.SarifArtifactLocation" artifactLocationFields.

Definition physicalLocationFields : list (string * decoder SarifPhysicalLocation) :=
  [ ("ArtifactLocation",
     fieldInto ArtifactLocation
       (λ a p, {| ArtifactLocation := a; Region := Region p |})
       artifactLocationInto);
    ("Region",
     fieldInto Region
       (λ r p, {| ArtifactLocation := ArtifactLocation p; Region := r |})
       regionInto) ].
Definition physicalLocationInto : decoder SarifPhysicalLocation :=
  structInto "main.SarifPhysicalLocation" physicalLocationFields.

Definition locationFields : list (string * decoder SarifLocation) :=
  [ ("PhysicalLocation",
     fieldInto PhysicalLocation (λ p _, {| PhysicalLocation := p |}) physicalLocationInto) ].
Definition locationInto : decoder SarifLocation :=
  structInto "main.SarifLocation" locationFields.

Definition messageFields : list (string * decoder SarifMessage) :=
  [ ("Text", fieldInto Text (λ s _, {| Text := s |}) stringInto) ].
Definition messageInto : decoder SarifMessage :=
  structInto "main.SarifMessage" messageFields.

Definition resultFields : list (string * decoder SarifResult) :=
  [ ("Message",
     fieldInto Message (λ m r, {| Message := m; Locations := Locations r |}) messageInto);
    ("Locations",
     fieldInto Locations (λ ls r, {| Message := Message r; Locations := ls |})
       (sliceInto "[]main.SarifLocation" zeroLocation locationInto)) ].
Definition resultInto : decoder SarifResult :=
  structInto "main.SarifResult" resultFields.

Definition runFields : list (string * decoder SarifRun) :=
  [ ("Results",
     fieldInto Results (λ rs _, {| Results := rs |})
       (sliceInto "[]main.SarifResult" zeroResult resultInto)) ].
Definition runInto : decoder SarifRun := structInto "main.SarifRun" runFields.

Definition sarifFields : list (string * decoder Sarif) :=
  [ ("Runs",
     fieldInto Runs (λ rs _, {| Runs := rs |})
       (sliceInto "[]main.SarifRun" zeroRun runInto)) ].
Definition sarifInto : decoder Sarif := structInto "main.Sarif" sarifFields.

(** [var sarif Sarif; err := json.Unmarshal(data, &sarif)], for the
    document that [data] holds. *)
Definition Unmarshal (doc : json) : Sarif * option error := sarifInto doc zeroSarif.

(** *** The documents that decode without error *)

(** The documents a decoder takes without a type error, type by type:
    null everywhere, a string for a string, an integer literal in range
    for an [int], an array of fitting elements for a slice, and for a
    struct an object whose members that name a field fit the field;
    the other members may hold anything. *)
Definition okString (j : json) : bool :=
  match j with
  | JNull | JString _ => true
  | _ => false
  end.

Definition okInt (j : json) : bool :=
  match j with
  | JNull => true
  | JNumber literal => bool_decide (is_Some (ParseInt literal))
  | _ => false
  end.

Definition okSlice (okElem : json → bool) (j : json) : bool :=
  match j with
  | JNull => true
  | JArray elems => forallb okElem elems
  | _ => false
  end.

Definition okMember (fields : list (string * (json → bool))) (member : string * json)
  : bool :=
  match findField fields (fst member) with
  | Some ok => ok (snd member)
  | None => true
  end.

Definition okStruct (fields : list (string * (json → bool))) (j : json) : bool :=
  match j with
  | JNull => true
  | JObject members => forallb (okMember fields) members
  | _ => false
  end.

Definition okRegion : json → bool :=
  okStruct [("StartLine", okInt); ("StartColumn", okInt); ("EndLine", okInt)].
Definition okArtifactLocation : json → bool := okStruct [("Uri", okString)].
Definition okPhysicalLocation : json → bool :=
  okStruct [("ArtifactLocation", okArtifactLocation); ("Region", okRegion)].
Definition okLocation : json → bool := okStruct [("PhysicalLocation", okPhysicalLocation)].
Definition okMessage : json → bool := okStruct [("Text", okString)].
Definition okResult : json → bool :=
  okStruct [("Message", okMessage); ("Locations", okSlice okLocation)].
Definition okRun : json → bool := okStruct [("Results", okSlice okResult)].
Definition okSarif : json → bool := okStruct [("Runs", okSlice okRun)].

(** A decoder fails on exactly the documents outside a shape. *)
Definition decides {T : Type} (d : decoder T) (ok : json → bool) : Prop :=
  ∀ j v, snd (d j v) = None ↔ ok j = true.

(** Fields and shapes of the same names, each field failing outside
    its shape. *)
Definition fieldsDecide {T : Type} (fields : list (string * decoder T))
    (shapes : list (string * (json → bool))) : Prop :=
  Forall2 (λ f s, fst f = fst s ∧ decides (snd f) (snd s)) fields shapes.

End Json.

(** ** Paths *)

Module Path.

(** [strings.Split(s, "/")] *)
Fixpoint split (s : string) : list string :=
  match s with
  | EmptyString => [EmptyString]
  | String c s' =>
      if decide (c = "/"%char) then EmptyString :: split s'
      else match split s' with
           | [] => [String c EmptyString]
           | h :: t => String c h :: t
           end
  end.

(** The elements of a cleaned path, innermost first: empty elements
    and dots are dropped, and a double dot takes back the element
    before it (or is dropped at the root). *)
Fixpoint cleanElems (rooted : bool) (stack : list string) (elems : list string)
  : list string :=
  match elems with
  | [] => stack
  | e :: rest =>
      if decide (e = EmptyString) then cleanElems rooted stack rest
      else if decide (e = ".") then cleanElems rooted stack rest
      else if decide (e = "..") then
        match stack with
        | top :: below =>
            if decide (top = "..") then cleanElems rooted (e :: stack) rest
            else cleanElems rooted below rest
        | [] =>
            if rooted then cleanElems rooted stack rest
            else cleanElems rooted (e :: stack) rest
        end
      else cleanElems rooted (e :: stack) rest
  end.

(** [path.Clean] *)
Definition Clean (p : string) : string :=
  let rooted := Str.hasPrefix "/" p in
  let body := Str.join "/" (rev (cleanElems rooted [] (split p))) in
  let cleaned := if rooted then "/" +:+ body else body in
  if decide (cleaned = EmptyString) then "." else cleaned.

(** [path.Join] *)
Definition Join (elems : list string) : string :=
  match filter (λ e, e ≠ EmptyString) elems with
  | [] => EmptyString
  | nonEmpty => Clean (Str.join "/" nonEmpty)
  end.

(** Whether [p] is [root] or lies below it. *)
Definition under (root p : string) : bool :=
  bool_decide (p = root) || Str.hasPrefix (root +:+ "/") p.

End Path.

(** ** The world around the program *)

(** What the program does to the world, in order. *)
Inductive event : Type :=
| EvMkdir (path : string)
| EvRemoveAll (path : string)
| EvExec (args : list string)
| EvReadFile (path : string)
| EvUnmarshal (data : string).

Record World : Type := {
  files : gmap string node;
  stdout : list string;
  trace : list event
}.

(** A finished external process: the error [cmd.Run] returns, the files
    it leaves behind, and what it wrote to its standard output. *)
Record completed : Type := {
  runErr : option error;
  filesAfter : gmap string node;
  written : list string
}.

(** What the program cannot decide itself. *)
Record System : Type := {
  (** [color.NoColor] *)
  NoColor : bool;
  (** [os.TempDir()] *)
  TempDir : string;
  (** the random parts of the names that [os.MkdirTemp] tries, in order *)
  random : list string;
  (** the failures of [os.Mkdir] other than an existing file *)
  mkdirError : string → option error;
  (** what an external command does when it is run on the files *)
  exec : list string → gmap string node → completed;
  (** the document a byte sequence denotes, [None] when it is not JSON *)
  syntax : string → option json
}.

Definition EEXIST : string := "file exists".

Definition writeOut (lines : list string) (w : World) : World :=
  {| files := files w; stdout := stdout w ++ lines; trace := trace w |}.

Definition record (ev : event) (w : World) : World :=
  {| files := files w; stdout := stdout w; trace := trace w ++ [ev] |}.

Definition setFiles (fs : gmap string node) (w : World) : World :=
  {| files := fs; stdout := stdout w; trace := trace w |}.

(** The loop of [os.MkdirTemp]: take the next random name until one is
    free. *)
Fixpoint mkdirTempLoop (sys : System) (prefix : string) (candidates : list string)
  (w : World) : (string * option error) * World :=
  match candidates with
  | [] => ((EmptyString, Some (PathError "mkdirtemp" (prefix +:+ "*") EEXIST)), w)
  | r :: rest =>
      let name := prefix +:+ r in
      match files w !! name with
      | Some _ => mkdirTempLoop sys prefix rest w
      | None =>
          match mkdirError sys name with
          | Some err => ((EmptyString, Some err), w)
          | None => ((name, None), record (EvMkdir name) (setFiles (<[name := Dir]> (files w)) w))
          end
      end
  end.

(** [os.MkdirTemp(dir, pattern)] for a pattern without a star. *)
Definition MkdirTemp (sys : System) (dir pattern : string) (w : World)
  : (string * option error) * World :=
  let prefix :=
    if Str.endsWith "/" dir then dir +:+ pattern
    else dir +:+ "/" +:+ pattern in
  mkdirTempLoop sys prefix (take (Z.to_nat 10000) (random sys)) w.

(** [os.RemoveAll(path)]; its error is not looked at. *)
Definition RemoveAll (path : string) (w : World) : World :=
  record (EvRemoveAll path)
    (setFiles (filter (λ entry, Path.under path (fst entry) = false) (files w)) w).

(** [cmd.Run()].  [connected]: the standard output of the process is
    the program's own. *)
Definition Run (sys : System) (args : list string) (connected : bool) (w : World)
  : option error * World :=
  let done := exec sys args (files w) in
  (runErr done,
   record (EvExec args)
     (writeOut (if connected then written done else []) (setFiles (filesAfter done) w))).

(** [os.ReadFile(name)] *)
Definition ReadFile (name : string) (w : World) : (string * option error) * World :=
  let w := record (EvReadFile name) w in
  match files w !! name with
  | None => ((EmptyString, Some (PathError "open" name ENOENT)), w)
  | Some Dir => ((EmptyString, Some (PathError "read" name EISDIR)), w)
  | Some (File data) => ((data, None), w)
  end.

(** [json.Unmarshal(data, &sarif)] on a zero [sarif]. *)
Definition UnmarshalBytes (sys : System) (data : string) (w : World)
  : (Sarif * option error) * World :=
  let w := record (EvUnmarshal data) w in
  match syntax sys data with
  | None => ((Json.zeroSarif, Some (SyntaxError "invalid character")), w)
  | Some doc => (Json.Unmarshal doc, w)
  end.

(** ** [runAnalysis] *)

Definition analyzeCommand (dbPath : string) : list string :=
  [ "codeql"; "database"; "analyze";
    "--format=sarif-latest";
    "--output=" +:+ Path.Join [dbPath; "results.json"];
    dbPath;
    "skip-mev/cosmos-52-ql" ].

Definition runAnalysis (sys : System) (dbPath : string) (w : World)
  : (option Sarif * option error) * World :=
  let resultsPath := Path.Join [dbPath; "results.json"] in
  let cmd :=
    [ "codeql"; "database"; "analyze";
      "--format=sarif-latest";
      "--output=" +:+ resultsPath;
      dbPath;
      "skip-mev/cosmos-52-ql" ] in
  let '(err, w) := Run sys cmd true w in
  match err with
  | Some err => ((None, Some (Errorf_w "analysis failed: " err)), w)
  | None =>
      let '((data, err), w) := ReadFile resultsPath w in
      match err with
      | Some err => ((None, Some err), w)
      | None =>
          let '((sarif, err), w) := UnmarshalBytes sys data w in
          match err with
          | Some err => ((None, Some err), w)
          | None => ((Some sarif, None), w)
          end
      end
  end.

(** ** [runMigrationCheck] *)

(** The argument list of the database creation, as the function builds
    it, with what it prints on the way. *)
Definition createCommand (dir customBuildCommand dbPath : string)
  : list string * list string :=
  let command :=
    [ "codeql"; "database"; "create";
      "--language=go";
      "--source-root"; dir ] in
  let '(command, notice) :=
    if decide (customBuildCommand ≠ EmptyString) then
      (command ++ ["--command"; customBuildCommand],
       ["Using custom build command: " +:+ customBuildCommand +:+ Str.nl])
    else (command, []) in
  let command := command ++ [dbPath] in
  (command, notice ++ ["[" +:+ Str.join " " command +:+ "]" +:+ Str.nl]).

(** The function after the [defer]. *)
Definition checkBody (sys : System) (dir customBuildCommand dbPath : string) (w : World)
  : outcome * World :=
  let '(command, printed) := createCommand dir customBuildCommand dbPath in
  let w := writeOut printed w in
  let '(err, w) := Run sys command false w in
  match err with
  | Some err => (Returned (Some err), w)
  | None =>
      let '((results, err), w) := runAnalysis sys dbPath w in
      match err with
      | Some err => (Returned (Some err), w)
      | None =>
          match results with
          | None => (Panicked "invalid memory address or nil pointer dereference", w)
          | Some sarif =>
              let '(out, how) := printFindings (NoColor sys) (files w) sarif in
              (how, writeOut out w)
          end
      end
  end.

Definition runMigrationCheck (sys : System) (dir customBuildCommand : string) (w : World)
  : outcome * World :=
  let '((dbPath, err), w) := MkdirTemp sys (TempDir sys) "cosmos-migration-db" w in
  match err with
  | Some err => (Returned (Some err), w)
  | None =>
      (* defer os.RemoveAll(dbPath): runs however the rest ends *)
      let '(how, w) := checkBody sys dir customBuildCommand dbPath w in
      (how, RemoveAll dbPath w)
  end.

(** [w'] is [w] after more events and more output. *)
Definition extends (w w' : World) : Prop :=
  (∃ later, trace w' = trace w ++ later) ∧ (∃ later, stdout w' = stdout w ++ later).

(** Whether [a] stands directly before [b] in an argument list. *)
Fixpoint followedBy (a b : string) (args : list string) : bool :=
  match args with
  | x :: ((y :: _) as rest) =>
      (bool_decide (x = a) && bool_decide (y = b)) || followedBy a b rest
  | _ => false
  end.

(** ** Sample inputs *)

Module Sample.

Definition location (uri : string) (line col : Z) : SarifLocation :=
  {| PhysicalLocation :=
       {| ArtifactLocation := {| Uri := uri |};
          Region := {| StartLine := line; StartColumn := col; EndLine := 0 |} |} |}.

Definition finding (text : string) (locations : list SarifLocation) : SarifResult :=
  {| Message := {| Text := text |}; Locations := locations |}.

Definition report (results : list SarifResult) : Sarif :=
  {| Runs := [ {| Results := results |} ] |}.

(** A source file of three lines. *)
Definition source : string :=
  "package main" +:+ Str.nl +:+ Str.nl +:+ "x := 1" +:+ Str.nl.

Definition tree : gmap string node := {[ "foo.go" := File source ]}.

(** The report of the specification's scenario, with a second finding
    at column 0. *)
Definition unused : Sarif :=
  report [ finding "unused variable" [location "foo.go" 3 5];
           finding "no package comment" [location "foo.go" 1 0] ].

(** A finding whose column is negative, between two ordinary ones. *)
Definition negative : Sarif :=
  report [ finding "unused variable"
             [location "foo.go" 3 5; location "foo.go" 1 (-1); location "foo.go" 1 0] ].

(** A finding in a file that does not exist, between two ordinary
    ones. *)
Definition missing : Sarif :=
  report [ finding "unused variable"
             [location "foo.go" 3 5; location "bar.go" 1 1; location "foo.go" 1 0] ].

(** A line too long for the scanner's buffer. *)
Definition longLine : string := Str.replicate (Z.to_nat 65536) "a".

(** The document of the specification's scenario, with members that
    the report's structures do not know. *)
Definition document : json :=
  JObject
    [ ("version", JString "2.1.0");
      ("runs",
       JArray
         [ JObject
             [ ("tool", JObject [("driver", JObject [("name", JString "CodeQL")])]);
               ("results",
                JArray
                  [ JObject
                      [ ("ruleId", JString "go/unused-variable");
                        ("message", JObject [("text", JString "unused variable")]);
                        ("locations",
                         JArray
                           [ JObject
                               [ ("physicalLocation",
                                  JObject
                                    [ ("artifactLocation",
                                       JObject [("uri", JString "foo.go");
                                                ("index", JNumber "0")]);
                                      ("region",
                                       JObject [("startLine", JNumber "3");
                                                ("startColumn", JNumber "5")]) ]) ] ])
                      ] ]) ] ]) ].

(** The same finding at column -1. *)
Definition negativeDocument : json :=
  JObject
    [ ("runs",
       JArray
         [ JObject
             [ ("results",
                JArray
                  [ JObject
                      [ ("message", JObject [("text", JString "unused variable")]);
                        ("locations",
                         JArray
                           [ JObject
                               [ ("physicalLocation",
                                  JObject
                                    [ ("artifactLocation",
                                       JObject [("uri", JString "foo.go")]);
                                      ("region",
                                       JObject [("startLine", JNumber "3");
                                                ("startColumn", JNumber "-1")]) ]) ] ])
                      ] ]) ] ]) ].

(** An engine that always exits with status 2. *)
Definition failing : System :=
  {| NoColor := true;
     TempDir := "/tmp";
     random := ["1"; "2"];
     mkdirError := λ _, None;
     exec := λ _ fs,
       {| runErr := Some (ProcessError "exit status 2");
          filesAfter := fs;
          written := [] |};
     syntax := λ _, None |}.

(** An engine that works: the creation leaves a file in the database,
    the analysis leaves the report there, and the report denotes
    [negativeDocument]. *)
Definition working : System :=
  {| NoColor := true;
     TempDir := "/tmp";
     random := ["1"; "2"];
     mkdirError := λ _, None;
     exec := λ args fs,
       match args with
       | [_; _; "analyze"; _; _; db; _] =>
           {| runErr := None;
              filesAfter := <[db +:+ "/results.json" := File "sarif report"]> fs;
              written := ["Interpreting results." +:+ Str.nl] |}
       | _ =>
           {| runErr := None;
              filesAfter := <[default EmptyString (last args) +:+ "/codeql-database.yml" := File EmptyString]> fs;
              written := ["Successfully created database." +:+ Str.nl] |}
       end;
     syntax := λ _, Some negativeDocument |}.

(** The world before the program starts: the source file, and a
    directory left by an earlier run under the first random name. *)
Definition world : World :=
  {| files := <["/tmp/cosmos-migration-db1" := Dir]> tree;
     stdout := [];
     trace := [] |}.

End Sample.

(** ** The command line ([flag]) and [main] *)

Module Flag.

(** How [parseOne] reads one argument. *)
Inductive argument : Type :=
| Positional
| Terminator
| BadSyntax
| Named (name : string) (value : option string).

(** The text before the first equals sign and, if there is one, the
    text after it. *)
Fixpoint cutEq (s : string) : string * option string :=
  match s with
  | EmptyString => (EmptyString, None)
  | String c rest =>
      if decide (c = "="%char) then (EmptyString, Some rest)
      else let '(name, value) := cutEq rest in (String c name, value)
  end.

(** An argument of less than two bytes or without a leading minus is
    no flag; two minuses alone end the flags; the name follows one or
    two minuses, must not start with a minus or an equals sign, and
    ends at the first equals sign after its first byte. *)
Definition classify (s : string) : argument :=
  match s with
  | String "-" (String c rest) =>
      if bool_decide (c = "-"%char) && bool_decide (rest = EmptyString) then Terminator
      else
        match (if decide (c = "-"%char) then rest else String c rest) with
        | EmptyString => BadSyntax
        | String first more =>
            if decide (first = "-"%char) then BadSyntax
            else if decide (first = "="%char) then BadSyntax
            else let '(name, value) := cutEq more in Named (String first name) value
        end
  | _ => Positional
  end.

(** The end of [flag.Parse()] for the two string flags of the program:
    their values and the arguments left over, or the request for help,
    or an error. *)
Inductive parsed : Type :=
| Parsed (dir command : string) (rest : list string)
| Help
| Failed (msg : string).

Fixpoint parse (dir command : string) (args : list string) : parsed :=
  match args with
  | [] => Parsed dir command []
  | s :: rest =>
      match classify s with
      | Positional => Parsed dir command args
      | Terminator => Parsed dir command rest
      | BadSyntax => Failed ("bad flag syntax: " +:+ s)
      | Named name value =>
          if bool_decide (name = "dir") || bool_decide (name = "command") then
            match value, rest with
            | Some v, _ =>
                if bool_decide (name = "dir") then parse v command rest
                else parse dir v rest
            | None, v :: rest' =>
                if bool_decide (name = "dir") then parse v command rest'
                else parse dir v rest'
            | None, [] => Failed ("flag needs an argument: -" +:+ name)
            end
          else if bool_decide (name = "help") || bool_decide (name = "h") then Help
          else Failed ("flag provided but not defined: -" +:+ name)
      end
  end.

End Flag.

(** How the process ends: its exit status, the line [main] itself wrote
    to the standard error, if any, and the world it leaves.  What the
    [flag] package and the runtime write to the standard error is left
    out. *)
Record finished : Type := {
  status : Z;
  errorLine : option string;
  final : World
}.

(** [main], for the arguments after the program name.  A flag error
    exits with status 2 and a request for help with status 0 (as the
    [flag] package does since Go 1.15), both before anything is run; a
    panic ends the process with status 2. *)
Definition main (sys : System) (args : list string) (w : World) : finished :=
  match Flag.parse "." EmptyString args with
  | Flag.Help => {| status := 0; errorLine := None; final := w |}
  | Flag.Failed _ => {| status := 2; errorLine := None; final := w |}
  | Flag.Parsed dir command _ =>
      match runMigrationCheck sys dir command w with
      | (Returned (Some err), w') =>
          {| status := 1;
             errorLine := Some ("Error: " +:+ Error err +:+ Str.nl);
             final := w' |}
      | (Returned None, w') => {| status := 0; errorLine := None; final := w' |}
      | (Panicked _, w') => {| status := 2; errorLine := None; final := w' |}
      end
  end.

(** ** More sample inputs *)

Module Demo.

(** An engine that works and whose report denotes [Sample.document]. *)
Definition engine : System :=
  {| NoColor := true;
     TempDir := "/tmp";
     random := ["1"; "2"];
     mkdirError := λ _, None;
     exec := exec Sample.working;
     syntax := λ _, Some Sample.document |}.

(** An engine whose creation works and whose analysis exits with
    status 2. *)
Definition halfway : System :=
  {| NoColor := true;
     TempDir := "/tmp";
     random := ["1"; "2"];
     mkdirError := λ _, None;
     exec := λ args fs,
       match args with
       | [_; _; "analyze"; _; _; _; _] =>
           {| runErr := Some (ProcessError "exit status 2");
              filesAfter := fs;
              written := ["A fatal error occurred." +:+ Str.nl] |}
       | _ => exec Sample.working args fs
       end;
     syntax := λ _, None |}.

End Demo.

(** ** The input format *)

(** The SARIF document of a report, with the member names of the
    format: the shape the program's input has. *)
Module Document.

Definition ofRegion (r : SarifRegion) : json :=
  JObject [ ("startLine", JNumber (Str.itoa (StartLine r)));
            ("startColumn", JNumber (Str.itoa (StartColumn r)));
            ("endLine", JNumber (Str.itoa (EndLine r))) ].

Definition ofLocation (l : SarifLocation) : json :=
  JObject
    [ ("physicalLocation",
       JObject
         [ ("artifactLocation",
            JObject [("uri", JString (Uri (ArtifactLocation (PhysicalLocation l))))]);
           ("region", ofRegion (Region (PhysicalLocation l))) ]) ].

Definition ofResult (r : SarifResult) : json :=
  JObject [ ("message", JObject [("text", JString (Text (Message r)))]);
            ("locations", JArray (map ofLocation (Locations r))) ].

Definition ofRun (r : SarifRun) : json :=
  JObject [("results", JArray (map ofResult (Results r)))].

Definition ofSarif (s : Sarif) : json :=
  JObject [("runs", JArray (map ofRun (Runs s)))].

End Document.

(** The values of a Go [int]. *)
Definition isInt (n : Z) : Prop := - 2 ^ 63 ≤ n < 2 ^ 63.

(** A report whose numbers are values of [int]. *)
Definition regionInRange (r : SarifRegion) : Prop :=
  isInt (StartLine r) ∧ isInt (StartColumn r) ∧ isInt (EndLine r).

Definition intsInRange (s : Sarif) : Prop :=
  Forall (λ run,
    Forall (λ result,
      Forall (λ location, regionInRange (Region (PhysicalLocation location)))
             (Locations result))
      (Results run))
    (Runs s).

(** ** Texts without escape sequences *)

(** A text that holds no escape character. *)
Definition plain (s : string) : Prop := Str.ESC ∉ String.list_ascii_of_string s.

(** A finding whose URI, message and source file are plain. *)
Definition plainFinding (fs : gmap string node) (finding : SarifResult * SarifLocation)
  : Prop :=
  plain (Uri (ArtifactLocation (PhysicalLocation (snd finding))))
  ∧ plain (Text (Message (fst finding)))
  ∧ ∀ data, fs !! Uri (ArtifactLocation (PhysicalLocation (snd finding))) = Some (File data) →
            plain data.

(** ** Clean paths *)

(** A text without slash. *)
Definition slashFree (e : string) : Prop := "/"%char ∉ String.list_ascii_of_string e.

(** An element of a clean path: not empty, not a dot or two dots, and
    without slash. *)
Definition element (e : string) : Prop :=
  e ≠ EmptyString ∧ e ≠ "." ∧ e ≠ ".." ∧ slashFree e.

(** The absolute path of some elements. *)
Definition absolute (elems : list string) : string := "/" +:+ Str.join "/" elems.
(** * Properties of the line reader *)

Section ReadSpecificLine.

Lemma cutLF_Some data line rest :
  Scanner.cutLF data = (line, Some rest) →
  fileLines data = line :: fileLines rest ∧
  (String.length rest < String.length data)%nat.
Proof.
  revert line. induction data as [|c data IH]; intros line; simpl.
  - discriminate.
  - destruct (decide (c = Str.LF)) as [->|Hc].
    + intros [= <- <-]. split; [done | lia].
    + destruct (Scanner.cutLF data) as [l more] eqn:E.
      intros [= <- ->]. destruct (IH l eq_refl) as [-> Hlt].
      split; [done | lia].
Qed.

Lemma cutLF_None data line :
  Scanner.cutLF data = (line, None) →
  line = data ∧
  fileLines data = if decide (line = EmptyString) then [] else [line].
Proof.
  revert line. induction data as [|c data IH]; intros line; simpl.
  - intros [= <-]. done.
  - destruct (decide (c = Str.LF)) as [->|Hc]; [discriminate|].
    destruct (Scanner.cutLF data) as [l more] eqn:E.
    intros [= <- ->]. destruct (IH l eq_refl) as [-> Hl].
    split; [done|]. rewrite Hl.
    destruct (decide (data = EmptyString)) as [->|];
      destruct (decide (String c _ = EmptyString)); done.
Qed.

(** The scan loop never runs out of iterations, and its result is the
    one [readLines] gives on the lines of the input. *)
Lemma scanLoop_readLines fuel input currentLine targetLine :
  (String.length input < fuel)%nat →
  scanLoop fuel input currentLine targetLine
  = Some (readLines (fileLines input) currentLine targetLine).
Proof.
  revert input currentLine.
  induction fuel as [|fuel IH]; intros input cur Hfuel; [lia|].
  simpl. unfold Scanner.Scan.
  destruct (Scanner.cutLF input) as [line [rest|]] eqn:Hcut.
  - apply cutLF_Some in Hcut as [-> Hlt]. simpl.
    destruct (Str.len line <? Scanner.MaxScanTokenSize); [|done].
    destruct (cur =? targetLine); [done|].
    apply IH. lia.
  - apply cutLF_None in Hcut as [-> ->].
    destruct (decide (input = EmptyString)) as [->|Hne]; [done|].
    simpl. destruct (Str.len input <? Scanner.MaxScanTokenSize); [|done].
    destruct (cur =? targetLine); [done|].
    destruct input; [done|]. simpl in Hfuel.
    destruct fuel; [lia|]. done.
Qed.

Lemma scanLoop_total input currentLine targetLine :
  ∃ r, scanLoop (S (String.length input)) input currentLine targetLine = Some r.
Proof. eexists. apply scanLoop_readLines. lia. Qed.

Lemma readSpecificLine_File fs filePath data targetLine :
  fs !! filePath = Some (File data) →
  readSpecificLine fs filePath targetLine = readLines (fileLines data) 1 targetLine.
Proof.
  intros Hf. unfold readSpecificLine. rewrite Hf.
  rewrite scanLoop_readLines by lia. done.
Qed.



(** The target line is found when it and the lines before it fit. *)
Lemma readLines_found ls currentLine targetLine l :
  currentLine ≤ targetLine →
  ls !! Z.to_nat (targetLine - currentLine) = Some l →
  Forall fits (take (S (Z.to_nat (targetLine - currentLine))) ls) →
  readLines ls currentLine targetLine = (Scanner.dropCR l, None).
Proof.
  revert currentLine. induction ls as [|x ls IH]; intros cur Hle Hl Hfit.
  - done.
  - simpl. simpl in Hfit. apply Forall_cons in Hfit as [Hx Hfit].
    unfold fits in Hx. apply Z.ltb_lt in Hx. rewrite Hx.
    destruct (cur =? targetLine) eqn:E.
    + apply Z.eqb_eq in E. subst cur. rewrite Z.sub_diag in Hl.
      simpl in Hl. by injection Hl as ->.
    + apply Z.eqb_neq in E.
      assert (Z.to_nat (targetLine - cur) = S (Z.to_nat (targetLine - (cur + 1)))) as Hn by lia.
      rewrite Hn in Hl, Hfit. simpl in Hl.
      apply IH; [lia|done|done].
Qed.

(** The lines run out when the target is beyond them or before the
    current line, provided every line fits. *)
Lemma readLines_short ls currentLine targetLine :
  targetLine < currentLine ∨ currentLine + Z.of_nat (length ls) ≤ targetLine →
  Forall fits ls →
  readLines ls currentLine targetLine
  = (EmptyString,
     Some (errorString ("file has less than " +:+ Str.itoa targetLine +:+ " lines"))).
Proof.
  revert currentLine. induction ls as [|x ls IH]; intros cur Hout Hfit.
  - done.
  - simpl. apply Forall_cons in Hfit as [Hx Hfit].
    unfold fits in Hx. apply Z.ltb_lt in Hx. rewrite Hx.
    simpl length in Hout.
    destruct (cur =? targetLine) eqn:E; [apply Z.eqb_eq in E; lia|].
    apply IH; [lia|done].
Qed.

(** Beyond the last line the reader always fails. *)
Lemma readLines_beyond ls currentLine targetLine :
  targetLine < currentLine ∨ currentLine + Z.of_nat (length ls) ≤ targetLine →
  ∃ err, readLines ls currentLine targetLine = (EmptyString, Some err).
Proof.
  revert currentLine. induction ls as [|x ls IH]; intros cur Hout.
  - eexists. done.
  - simpl. simpl length in Hout.
    destruct (Str.len x <? _); [|by eexists].
    destruct (cur =? targetLine) eqn:E; [apply Z.eqb_eq in E; lia|].
    apply IH. lia.
Qed.

(** [dropCR] removes at most one byte, a carriage return at the end. *)
Lemma dropCR_spec l :
  l = Scanner.dropCR l ∨ l = Scanner.dropCR l +:+ String Str.CR EmptyString.
Proof.
  induction l as [|c l IH]; [by left|].
  destruct l as [|d l].
  - simpl. destruct (decide (c = Str.CR)) as [->|]; [by right|by left].
  - change (Scanner.dropCR (String c (String d l)))
      with (String c (Scanner.dropCR (String d l))).
    destruct IH as [IH|IH]; [left|right]; by rewrite IH at 1.
Qed.

End ReadSpecificLine.

(** * Properties of the renderer *)

Section Prog.

Lemma prog_bind_ret {A B} (a : A) (k : A → prog B) : mret a ≫= k = k a.
Proof. unfold mret, prog_ret, mbind, prog_bind. by destruct (k a). Qed.

Lemma prog_bind_assoc {A B C} (m : prog A) (k : A → prog B) (h : B → prog C) :
  (m ≫= k) ≫= h = m ≫= (λ a, k a ≫= h).
Proof.
  unfold mbind, prog_bind. destruct m as [out [a|err|msg]]; try done.
  destruct (k a) as [out1 [b|err|msg]]; try done.
  destruct (h b) as [out2 f]. by rewrite app_assoc.
Qed.

Lemma rangeOver_app {A} (xs ys : list A) (body : A → prog unit) :
  rangeOver (xs ++ ys) body = (rangeOver xs body ;; rangeOver ys body).
Proof.
  induction xs as [|x xs IH].
  - change (rangeOver [] body) with (mret (M := prog) tt).
    by rewrite prog_bind_ret.
  - change (rangeOver ((x :: xs) ++ ys) body)
      with (body x ;; rangeOver (xs ++ ys) body).
    change (rangeOver (x :: xs) body) with (body x ;; rangeOver xs body).
    by rewrite IH, prog_bind_assoc.
Qed.

Lemma rangeOver_ext {A} (xs : list A) (body body' : A → prog unit) :
  (∀ x, body x = body' x) → rangeOver xs body = rangeOver xs body'.
Proof. intros H. induction xs as [|x xs IH]; simpl; [done|]. by rewrite H, IH. Qed.

Lemma rangeOver_map {A B} (f : A → B) (xs : list A) (body : B → prog unit) :
  rangeOver (map f xs) body = rangeOver xs (λ x, body (f x)).
Proof. induction xs as [|x xs IH]; simpl; [done|]. by rewrite IH. Qed.

Lemma rangeOver_flat_map {A B} (f : A → list B) (xs : list A) (body : B → prog unit) :
  rangeOver (flat_map f xs) body = rangeOver xs (λ x, rangeOver (f x) body).
Proof.
  induction xs as [|x xs IH]; simpl; [done|].
  by rewrite rangeOver_app, IH.
Qed.

End Prog.

Section PrintFindings.

Context (NoColor : bool) (fs : gmap string node).

(** The three nested loops visit the findings one after the other. *)
Lemma printFindings_findings sarif :
  printFindings NoColor fs sarif
  = call (rangeOver (findings sarif) (renderLocation NoColor fs) ;; ([], Return None)).
Proof.
  unfold printFindings, findings. f_equal. f_equal.
  rewrite rangeOver_flat_map. apply rangeOver_ext. intros run.
  rewrite rangeOver_flat_map. apply rangeOver_ext. intros result.
  rewrite rangeOver_map. apply rangeOver_ext. intros location.
  unfold renderLocation, sourceLine.
  destruct (readSpecificLine _ _ _) as [code [err|]]; [done|].
  unfold Repeat, headline, snippet, caret, Println, Print.
  destruct (_ <? 0); done.
Qed.

Lemma renderLocation_renders finding :
  renders fs finding →
  renderLocation NoColor fs finding = (block NoColor fs finding, Next tt).
Proof.
  destruct finding as [result location]. intros [Hr Hc].
  unfold readable, startColumn in *. simpl in *.
  unfold renderLocation, block. simpl.
  destruct (sourceLine fs location) as [code err]. simpl in Hr. subst err.
  apply Z.ltb_ge in Hc. by rewrite Hc.
Qed.

(** While the findings render, their blocks pile up in order. *)
Lemma rangeOver_renders pre :
  Forall (renders fs) pre →
  rangeOver pre (renderLocation NoColor fs) = (flat_map (block NoColor fs) pre, Next tt).
Proof.
  induction 1 as [|p pre Hp Hpre IH]; [done|].
  simpl rangeOver. rewrite renderLocation_renders, IH by done. done.
Qed.

(** The pass up to and including the finding that follows a rendered
    prefix. *)
Lemma rangeOver_stop pre finding post out (f : flow unit) :
  Forall (renders fs) pre →
  renderLocation NoColor fs finding = (out, f) →
  (∀ u, f ≠ Next u) →
  rangeOver (pre ++ finding :: post) (renderLocation NoColor fs)
  = (flat_map (block NoColor fs) pre ++ out, f).
Proof.
  intros Hpre Hr Hf. rewrite rangeOver_app, (rangeOver_renders pre) by done.
  simpl rangeOver. rewrite Hr.
  destruct f as [u|err|msg]; [by destruct (Hf u)|done|done].
Qed.

Lemma rangeOver_step pre finding post :
  Forall (renders fs) pre →
  renders fs finding →
  ∃ rest f,
    rangeOver (pre ++ finding :: post) (renderLocation NoColor fs)
    = (flat_map (block NoColor fs) pre ++ block NoColor fs finding ++ rest, f).
Proof.
  intros Hpre Hr. rewrite rangeOver_app, (rangeOver_renders pre) by done.
  simpl rangeOver. rewrite renderLocation_renders by done.
  destruct (rangeOver post _) as [rest f]. exists rest, f.
  unfold mbind, prog_bind. simpl. done.
Qed.

Lemma length_flat_map_block (ps : list (SarifResult * SarifLocation)) :
  length (flat_map (block NoColor fs) ps) = (3 * length ps)%nat.
Proof. induction ps as [|p ps IH]; simpl; lia. Qed.


End PrintFindings.

Section Lines.

Lemma replicate_space_S n :
  Str.replicate (S n) " " = String " " (Str.replicate n " ").
Proof. done. Qed.

Lemma length_replicate_space n : String.length (Str.replicate n " ") = n.
Proof.
  induction n as [|n IH]; [done|].
  rewrite replicate_space_S. simpl. by rewrite IH.
Qed.

Lemma replicate_space_chars n c :
  c ∈ String.list_ascii_of_string (Str.replicate n " ") → c = " "%char.
Proof.
  induction n as [|n IH].
  - by intros ?%elem_of_nil.
  - rewrite replicate_space_S. simpl.
    intros [->|?]%elem_of_cons; [done|]. by apply IH.
Qed.

Lemma shown_replicate_space n s :
  color.shown false (Str.replicate n " " +:+ s)
  = Str.replicate n " " +:+ color.shown false s.
Proof.
  induction n as [|n IH]; [done|].
  rewrite replicate_space_S.
  change (String " " (Str.replicate n " ") +:+ s)
    with (String " " (Str.replicate n " " +:+ s)).
  simpl. by rewrite IH.
Qed.

Lemma shown_caret NoColor :
  color.shown false (color.Sprint NoColor color.FgYellow "^") = "^".
Proof. by destruct NoColor. Qed.

End Lines.

Section Reached.

Context (NoColor : bool) (fs : gmap string node).

(** What has been written when the pass has gone through a finding that
    follows a rendered prefix. *)
Lemma printFindings_prefix sarif pre finding post out (f : flow unit) :
  findings sarif = pre ++ finding :: post →
  Forall (renders fs) pre →
  renderLocation NoColor fs finding = (out, f) →
  ∃ rest,
    fst (printFindings NoColor fs sarif)
    = flat_map (block NoColor fs) pre ++ out ++ rest.
Proof.
  intros Hs Hpre Hr. rewrite printFindings_findings, Hs.
  rewrite rangeOver_app, (rangeOver_renders _ _ pre) by done.
  simpl rangeOver. rewrite Hr.
  destruct f as [[]|err|msg].
  - destruct (rangeOver post _) as [rest [[]|err|msg]];
      exists rest; cbn; by rewrite ?app_nil_r.
  - exists []. cbn. by rewrite ?app_nil_r.
  - exists []. cbn. by rewrite ?app_nil_r.
Qed.

(** How the pass ends at a finding that does not render. *)
Lemma printFindings_stop sarif pre finding post out (f : flow unit) :
  findings sarif = pre ++ finding :: post →
  Forall (renders fs) pre →
  renderLocation NoColor fs finding = (out, f) →
  (∀ u, f ≠ Next u) →
  printFindings NoColor fs sarif
  = call (flat_map (block NoColor fs) pre ++ out,
          match f with
          | Next _ => Return None
          | Return err => Return err
          | Panic msg => Panic msg
          end).
Proof.
  intros Hs Hpre Hr Hf. rewrite printFindings_findings, Hs.
  rewrite (rangeOver_stop _ _ pre finding post out f) by done.
  destruct f as [u|err|msg]; [by destruct (Hf u)|done|done].
Qed.

Lemma lookup_block_0 {A} (pre : list (SarifResult * SarifLocation))
    (a : A) (out rest : list A) (blocks : list A) :
  length blocks = (3 * length pre)%nat →
  (blocks ++ (a :: out) ++ rest) !! (3 * length pre)%nat = Some a.
Proof.
  intros Hl. rewrite lookup_app_r by lia.
  by replace (3 * length pre - length blocks)%nat with 0%nat by lia.
Qed.

Lemma lookup_block_1 {A} (pre : list (SarifResult * SarifLocation))
    (a b : A) (out rest : list A) (blocks : list A) :
  length blocks = (3 * length pre)%nat →
  (blocks ++ (a :: b :: out) ++ rest) !! (3 * length pre + 1)%nat = Some b.
Proof.
  intros Hl. rewrite lookup_app_r by lia.
  by replace (3 * length pre + 1 - length blocks)%nat with 1%nat by lia.
Qed.

Lemma lookup_block_2 {A} (pre : list (SarifResult * SarifLocation))
    (a b c : A) (out rest : list A) (blocks : list A) :
  length blocks = (3 * length pre)%nat →
  (blocks ++ (a :: b :: c :: out) ++ rest) !! (3 * length pre + 2)%nat = Some c.
Proof.
  intros Hl. rewrite lookup_app_r by lia.
  by replace (3 * length pre + 2 - length blocks)%nat with 2%nat by lia.
Qed.

End Reached.

Section NegativeColumn.

Context (NoColor : bool) (fs : gmap string node).

(** A finding with a negative column never lets the loop go on. *)
Lemma renderLocation_negative finding out u :
  startColumn finding < 0 →
  renderLocation NoColor fs finding ≠ (out, Next u).
Proof.
  destruct finding as [result location]. unfold startColumn. simpl.
  intros Hneg. unfold renderLocation.
  destruct (sourceLine fs location) as [code [err|]]; [done|].
  apply Z.ltb_lt in Hneg. by rewrite Hneg.
Qed.

Lemma rangeOver_negative findings :
  Exists (λ finding, startColumn finding < 0) findings →
  ∀ out u, rangeOver findings (renderLocation NoColor fs) ≠ (out, Next u).
Proof.
  induction findings as [|p ps IH]; intros Hex out u.
  - by apply Exists_nil in Hex.
  - simpl rangeOver.
    destruct (renderLocation NoColor fs p) as [out1 [[]|err|msg]] eqn:Hp;
      [|done|done].
    apply Exists_cons in Hex as [Hneg|Hex].
    + by destruct (renderLocation_negative p out1 () Hneg).
    + unfold mbind, prog_bind.
      destruct (rangeOver ps _) as [out2 f] eqn:Hps.
      intros [= _ ->]. by eapply IH.
Qed.

(** The loop body never returns nil. *)
Lemma rangeOver_never_nil findings out :
  rangeOver findings (renderLocation NoColor fs) ≠ (out, Return None).
Proof.
  revert out. induction findings as [|p ps IH]; intros out; [done|].
  simpl rangeOver.
  destruct (renderLocation NoColor fs p) as [o [[]|[e|]|m]] eqn:Hp; try done.
  - unfold mbind, prog_bind.
    destruct (rangeOver ps _) as [o2 f2] eqn:Hps. intros [= _ ->]. by eapply IH.
  - exfalso. destruct p as [result location]. unfold renderLocation in Hp.
    destruct (sourceLine fs location) as [code [err|]]; [done|].
    by destruct (_ <? 0).
Qed.

(** A report with a negative column somewhere is never rendered to the
    end: the pass returns a read error or panics. *)
Lemma printFindings_negative_never_nil sarif out :
  Exists (λ finding, startColumn finding < 0) (findings sarif) →
  printFindings NoColor fs sarif ≠ (out, Returned None).
Proof.
  intros Hex. rewrite printFindings_findings.
  pose proof (rangeOver_negative _ Hex) as Hnot.
  pose proof (rangeOver_never_nil (findings sarif)) as Hnil.
  destruct (rangeOver (findings sarif) _) as [out1 [[]|[err|]|msg]] eqn:Hr; try done.
  - by destruct (Hnot out1 ()).
  - by destruct (Hnil out1).
Qed.

End NegativeColumn.

(** * The renderer: the claims *)

(** C8.  When the pass reaches a finding — the findings before it have
    rendered — and the source line of the finding reads as [code], the
    next two lines written are [<uri>:<line>:<column>: <message>], the
    message inside the escape sequences for red unless colours are off,
    and two spaces, the line number, a colon, a space and [code]. *)
Theorem printFindings_headline_and_snippet
    (NoColor : bool) fs sarif pre result location post code :
  findings sarif = pre ++ (result, location) :: post →
  Forall (renders fs) pre →
  sourceLine fs location = (code, None) →
  let uri := Uri (ArtifactLocation (PhysicalLocation location)) in
  let line := StartLine (Region (PhysicalLocation location)) in
  let column := StartColumn (Region (PhysicalLocation location)) in
  let message := Text (Message result) in
  let shownMessage :=
    if NoColor then message
    else String Str.ESC "[31m" +:+ message +:+ String Str.ESC "[0m" in
  fst (printFindings NoColor fs sarif) !! (3 * length pre)%nat
  = Some (uri +:+ ":" +:+ Str.itoa line +:+ ":" +:+ Str.itoa column +:+ ": "
            +:+ shownMessage +:+ Str.nl)
  ∧ fst (printFindings NoColor fs sarif) !! (3 * length pre + 1)%nat
    = Some ("  " +:+ Str.itoa line +:+ ": " +:+ code +:+ Str.nl).
Proof.
  intros Hs Hpre Hcode uri line column message shownMessage.
  assert (∃ out f, renderLocation NoColor fs (result, location)
                   = (headline NoColor result location :: snippet location code :: out, f))
    as (out & f & Hr).
  { unfold renderLocation. rewrite Hcode. destruct (_ <? 0); eauto. }
  destruct (printFindings_prefix NoColor fs sarif pre _ post _ f Hs Hpre Hr) as [rest ->].
  split.
  - rewrite lookup_block_0 by apply length_flat_map_block.
    unfold headline. subst shownMessage. by destruct NoColor.
  - by rewrite lookup_block_1 by apply length_flat_map_block.
Qed.

Lemma printFindings_headline_and_snippet_witness :
  fst (printFindings true Sample.tree Sample.negative) !! 3%nat
  = Some ("foo.go:1:-1: unused variable" +:+ Str.nl)
  ∧ fst (printFindings true Sample.tree Sample.negative) !! 4%nat
    = Some ("  1: package main" +:+ Str.nl).
Proof.
  apply (printFindings_headline_and_snippet true Sample.tree Sample.negative
           [(Sample.finding "unused variable"
               [Sample.location "foo.go" 3 5; Sample.location "foo.go" 1 (-1);
                Sample.location "foo.go" 1 0],
             Sample.location "foo.go" 3 5)]
           (Sample.finding "unused variable"
              [Sample.location "foo.go" 3 5; Sample.location "foo.go" 1 (-1);
               Sample.location "foo.go" 1 0])
           (Sample.location "foo.go" 1 (-1))
           [(Sample.finding "unused variable"
               [Sample.location "foo.go" 3 5; Sample.location "foo.go" 1 (-1);
                Sample.location "foo.go" 1 0],
             Sample.location "foo.go" 1 0)] "package main").
  - reflexivity.
  - repeat constructor; vm_compute; congruence.
  - reflexivity.
Defined.

(** C1.  For a finding that is rendered — the findings before it have
    rendered, its source line is readable and its column is not
    negative — the third line written is exactly [StartColumn] spaces,
    whatever the length of the source line, and then the caret, inside
    the escape sequences for yellow unless colours are off.  What a
    terminal shows of the line is the spaces and one caret: one
    character for column 0. *)
Theorem printFindings_caret (NoColor : bool) fs sarif pre result location post :
  findings sarif = pre ++ (result, location) :: post →
  Forall (renders fs) pre →
  renders fs (result, location) →
  let column := StartColumn (Region (PhysicalLocation location)) in
  let spaces := Str.replicate (Z.to_nat column) " " in
  let mark :=
    if NoColor then "^" else String Str.ESC "[33m" +:+ "^" +:+ String Str.ESC "[0m" in
  fst (printFindings NoColor fs sarif) !! (3 * length pre + 2)%nat
  = Some ((spaces +:+ mark) +:+ Str.nl)
  ∧ Str.len spaces = column
  ∧ (∀ c, c ∈ String.list_ascii_of_string spaces → c = " "%char)
  ∧ color.shown false (spaces +:+ mark) = spaces +:+ "^"
  ∧ (column = 0 → spaces +:+ mark = mark ∧ color.shown false (spaces +:+ mark) = "^").
Proof.
  intros Hs Hpre Hr column spaces mark.
  assert (mark = color.Sprint NoColor color.FgYellow "^") as Hmark
    by (subst mark; by destruct NoColor).
  pose proof (renderLocation_renders NoColor fs _ Hr) as Hrender.
  destruct (printFindings_prefix NoColor fs sarif pre _ post _ _ Hs Hpre Hrender)
    as [rest ->].
  assert (color.shown false (spaces +:+ mark) = spaces +:+ "^") as Hshown.
  { subst spaces. by rewrite shown_replicate_space, Hmark, shown_caret. }
  split; [|split; [|split; [|split]]].
  - unfold block. rewrite lookup_block_2 by apply length_flat_map_block.
    unfold caret. simpl. by rewrite <- Hmark.
  - unfold Str.len. subst spaces. rewrite length_replicate_space.
    destruct Hr as [_ Hc]. unfold startColumn in Hc. simpl in Hc. lia.
  - apply replicate_space_chars.
  - done.
  - intros Hzero. rewrite Hshown. subst spaces. by rewrite Hzero.
Qed.

Lemma printFindings_caret_witness :
  fst (printFindings false Sample.tree Sample.unused) !! 2%nat
  = Some (("     " +:+ String Str.ESC "[33m" +:+ "^" +:+ String Str.ESC "[0m") +:+ Str.nl)
  ∧ fst (printFindings false Sample.tree Sample.unused) !! 5%nat
    = Some ((String Str.ESC "[33m" +:+ "^" +:+ String Str.ESC "[0m") +:+ Str.nl).
Proof.
  split.
  - apply (printFindings_caret false Sample.tree Sample.unused
             [] (Sample.finding "unused variable" [Sample.location "foo.go" 3 5])
             (Sample.location "foo.go" 3 5)
             [(Sample.finding "no package comment" [Sample.location "foo.go" 1 0],
               Sample.location "foo.go" 1 0)]).
    + reflexivity.
    + constructor.
    + split; vm_compute; congruence.
  - apply (printFindings_caret false Sample.tree Sample.unused
             [(Sample.finding "unused variable" [Sample.location "foo.go" 3 5],
               Sample.location "foo.go" 3 5)]
             (Sample.finding "no package comment" [Sample.location "foo.go" 1 0])
             (Sample.location "foo.go" 1 0) []).
    + reflexivity.
    + repeat constructor; vm_compute; congruence.
    + split; vm_compute; congruence.
Defined.




(** C7.  When the pass reaches a finding — the findings before it have
    rendered — whose source line cannot be read, [printFindings]
    returns at once the read error wrapped behind "failed to read
    file: ".  What was written is the blocks of the findings before:
    no line of the failing finding and nothing of what follows it. *)
Theorem printFindings_read_failure
    (NoColor : bool) fs sarif pre result location post text err :
  findings sarif = pre ++ (result, location) :: post →
  Forall (renders fs) pre →
  sourceLine fs location = (text, Some err) →
  printFindings NoColor fs sarif
  = (flat_map (block NoColor fs) pre,
     Returned (Some (wrapError ("failed to read file: " +:+ Error err) err))).
Proof.
  intros Hs Hpre Hread.
  rewrite (printFindings_stop NoColor fs sarif pre (result, location) post []
             (Return (Some (Errorf_w "failed to read file: " err)))); try done.
  - simpl. by rewrite app_nil_r.
  - unfold renderLocation. by rewrite Hread.
Qed.

Lemma printFindings_read_failure_witness :
  printFindings true Sample.tree Sample.missing
  = ([ "foo.go:3:5: unused variable" +:+ Str.nl;
       "  3: x := 1" +:+ Str.nl;
       "     ^" +:+ Str.nl ],
     Returned (Some (wrapError
                       "failed to read file: open bar.go: no such file or directory"
                       (PathError "open" "bar.go" "no such file or directory")))).
Proof.
  apply (printFindings_read_failure true Sample.tree Sample.missing
           [(Sample.finding "unused variable"
               [Sample.location "foo.go" 3 5; Sample.location "bar.go" 1 1;
                Sample.location "foo.go" 1 0],
             Sample.location "foo.go" 3 5)]
           (Sample.finding "unused variable"
              [Sample.location "foo.go" 3 5; Sample.location "bar.go" 1 1;
               Sample.location "foo.go" 1 0])
           (Sample.location "bar.go" 1 1)
           [(Sample.finding "unused variable"
               [Sample.location "foo.go" 3 5; Sample.location "bar.go" 1 1;
                Sample.location "foo.go" 1 0],
             Sample.location "foo.go" 1 0)]
           EmptyString (PathError "open" "bar.go" "no such file or directory")).
  - reflexivity.
  - repeat constructor; vm_compute; congruence.
  - reflexivity.
Defined.

(** C10.  [printFindings] is not total.  The decoder takes any integer
    for [StartColumn], a negative one too; and when the pass reaches a
    finding with a negative column whose source line is readable, it
    writes the first two lines of the finding and then panics in
    [strings.Repeat], instead of returning an error. *)
Theorem printFindings_negative_column
    (NoColor : bool) fs sarif pre result location post code :
  findings sarif = pre ++ (result, location) :: post →
  Forall (renders fs) pre →
  sourceLine fs location = (code, None) →
  StartColumn (Region (PhysicalLocation location)) < 0 →
  printFindings NoColor fs sarif
  = (flat_map (block NoColor fs) pre
       ++ [headline NoColor result location; snippet location code],
     Panicked "strings: negative Repeat count")
  ∧ (∀ literal n,
       Json.ParseInt literal = Some n →
       Json.regionInto (JObject [("startColumn", JNumber literal)]) Json.zeroRegion
       = ({| StartLine := 0; StartColumn := n; EndLine := 0 |}, None)).
Proof.
  intros Hs Hpre Hcode Hneg. split.
  - rewrite (printFindings_stop NoColor fs sarif pre (result, location) post
               [headline NoColor result location; snippet location code]
               (Panic "strings: negative Repeat count")); try done.
    unfold renderLocation. rewrite Hcode.
    apply Z.ltb_lt in Hneg. by rewrite Hneg.
  - intros literal n Hn.
    unfold Json.regionInto, Json.structInto, Json.membersInto.
    lazy -[Json.intInto]. unfold Json.intInto. by rewrite Hn.
Qed.

Lemma printFindings_negative_column_witness :
  printFindings true Sample.tree Sample.negative
  = ([ "foo.go:3:5: unused variable" +:+ Str.nl;
       "  3: x := 1" +:+ Str.nl;
       "     ^" +:+ Str.nl;
       "foo.go:1:-1: unused variable" +:+ Str.nl;
       "  1: package main" +:+ Str.nl ],
     Panicked "strings: negative Repeat count")
  ∧ Json.regionInto (JObject [("startColumn", JNumber "-1")]) Json.zeroRegion
    = ({| StartLine := 0; StartColumn := -1; EndLine := 0 |}, None).
Proof.
  pose proof (printFindings_negative_column true Sample.tree Sample.negative
           [(Sample.finding "unused variable"
               [Sample.location "foo.go" 3 5; Sample.location "foo.go" 1 (-1);
                Sample.location "foo.go" 1 0],
             Sample.location "foo.go" 3 5)]
           (Sample.finding "unused variable"
              [Sample.location "foo.go" 3 5; Sample.location "foo.go" 1 (-1);
               Sample.location "foo.go" 1 0])
           (Sample.location "foo.go" 1 (-1))
           [(Sample.finding "unused variable"
               [Sample.location "foo.go" 3 5; Sample.location "foo.go" 1 (-1);
                Sample.location "foo.go" 1 0],
             Sample.location "foo.go" 1 0)]
           "package main") as H.
  destruct H as [Hpanic Hdecode].
  - reflexivity.
  - repeat constructor; vm_compute; congruence.
  - reflexivity.
  - reflexivity.
  - split; [exact Hpanic | exact (Hdecode "-1" (-1) eq_refl)].
Defined.

(** * The line reader: the claims *)

(** A target before the first line is never found. *)
Lemma readSpecificLine_before_first fs filePath data targetLine :
  fs !! filePath = Some (File data) →
  targetLine < 1 →
  Forall fits (fileLines data) →
  readSpecificLine fs filePath targetLine
  = (EmptyString,
     Some (errorString ("file has less than " +:+ Str.itoa targetLine +:+ " lines"))).
Proof.
  intros Hf Hlt Hfit. rewrite (readSpecificLine_File _ _ _ _ Hf).
  apply readLines_short; [by left|done].
Qed.

(** C2, as amended.  For a file and a target line number [N] that is
    at least 1, when the lines up to line [N] are each shorter than the
    scanner's buffer (65536 bytes): if [N] is at most the number of
    lines, [readSpecificLine] returns the text of line [N] without its
    line feed and without one carriage return at its end, and otherwise
    byte for byte, with no error; if [N] is greater, it returns the
    empty string and the error "file has less than N lines". *)
Theorem readSpecificLine_line fs filePath data targetLine :
  fs !! filePath = Some (File data) →
  1 ≤ targetLine →
  Forall fits (take (Z.to_nat targetLine) (fileLines data)) →
  (targetLine ≤ lineCount data ↔ is_Some (lineAt data targetLine))
  ∧ readSpecificLine fs filePath targetLine
    = match lineAt data targetLine with
      | Some l => (Scanner.dropCR l, None)
      | None =>
          (EmptyString,
           Some (errorString ("file has less than " +:+ Str.itoa targetLine +:+ " lines")))
      end
  ∧ (∀ l, lineAt data targetLine = Some l →
          l = Scanner.dropCR l ∨ l = Scanner.dropCR l +:+ String Str.CR EmptyString).
Proof.
  intros Hf Hpos Hfit. unfold lineAt, lineCount.
  assert ((targetLine <? 1) = false) as -> by lia.
  split; [|split].
  - rewrite lookup_lt_is_Some. lia.
  - rewrite (readSpecificLine_File _ _ _ _ Hf).
    destruct (fileLines data !! Z.to_nat (targetLine - 1)) as [l|] eqn:Hl.
    + apply readLines_found; [lia|done|].
      by replace (S (Z.to_nat (targetLine - 1))) with (Z.to_nat targetLine) by lia.
    + apply lookup_ge_None in Hl.
      rewrite take_ge in Hfit by lia.
      apply readLines_short; [right; lia|done].
  - intros l _. apply dropCR_spec.
Qed.

Lemma readSpecificLine_line_witness :
  readSpecificLine Sample.tree "foo.go" 3 = ("x := 1", None)
  ∧ readSpecificLine Sample.tree "foo.go" 4
    = (EmptyString, Some (errorString "file has less than 4 lines")).
Proof.
  split.
  - pose proof (readSpecificLine_line Sample.tree "foo.go" Sample.source 3) as H.
    destruct H as (_ & H & _).
    + reflexivity.
    + lia.
    + repeat constructor; vm_compute; reflexivity.
    + exact H.
  - pose proof (readSpecificLine_line Sample.tree "foo.go" Sample.source 4) as H.
    destruct H as (_ & H & _).
    + reflexivity.
    + lia.
    + repeat constructor; vm_compute; reflexivity.
    + exact H.
Defined.

(** C2, as stated, fails in three ways.  A target of 0 is at most the
    line count, and no line is returned.  A line of 65536 bytes is not
    returned: the scanner gives up on it.  A carriage return that ends
    a last line without line feed is trimmed. *)
Lemma readSpecificLine_line_counterexample :
  (0 ≤ lineCount "x"
   ∧ readSpecificLine {[ "f" := File "x" ]} "f" 0
     = (EmptyString, Some (errorString "file has less than 0 lines")))
  ∧ (1 ≤ lineCount (Sample.longLine +:+ Str.nl)
     ∧ readSpecificLine {[ "f" := File (Sample.longLine +:+ Str.nl) ]} "f" 1
       = (EmptyString, Some ErrTooLong))
  ∧ (fileLines (String "x" (String Str.CR EmptyString))
     = [String "x" (String Str.CR EmptyString)]
     ∧ readSpecificLine {[ "f" := File (String "x" (String Str.CR EmptyString)) ]} "f" 1
       = ("x", None)).
Proof.
  split; [|split]; (split; [vm_compute; try congruence; reflexivity | vm_compute; reflexivity]).
Qed.

(** * The decoder *)

Section Decoders.

Import Json.

Lemma firstError_None e1 e2 : firstError e1 e2 = None ↔ e1 = None ∧ e2 = None.
Proof. destruct e1, e2; simpl; split; try done; by intros [? ?]. Qed.

Lemma decides_int : decides intInto okInt.
Proof.
  intros j v. destruct j; simpl; try done.
  destruct (ParseInt literal) as [n|]; simpl; split; try done.
Qed.

Lemma decides_string : decides stringInto okString.
Proof. intros j v. by destruct j. Qed.

Lemma elemsInto_ok {T} (zero : T) (elem : decoder T) ok elems :
  decides elem ok →
  snd (elemsInto zero elem elems) = None ↔ forallb ok elems = true.
Proof.
  intros Hd. induction elems as [|j elems IH]; simpl; [done|].
  specialize (Hd j zero).
  destruct (elem j zero) as [x e]. destruct (elemsInto zero elem elems) as [xs e'].
  simpl in *. rewrite firstError_None, andb_true_iff. tauto.
Qed.

Lemma decides_slice {T} type (zero : T) (elem : decoder T) ok :
  decides elem ok → decides (sliceInto type zero elem) (okSlice ok).
Proof.
  intros Hd j v. destruct j; simpl; try done.
  by apply elemsInto_ok.
Qed.

Lemma decides_field {T F} (get : T → F) set (d : decoder F) ok :
  decides d ok → decides (fieldInto get set d) ok.
Proof.
  intros Hd j v. unfold fieldInto. specialize (Hd j (get v)).
  by destruct (d j (get v)).
Qed.

Lemma find_fieldsDecide {T} (fields : list (string * decoder T)) shapes
    (test : string → bool) :
  fieldsDecide fields shapes →
  match find (λ f, test (fst f)) fields, find (λ s, test (fst s)) shapes with
  | Some f, Some s => decides (snd f) (snd s)
  | None, None => True
  | _, _ => False
  end.
Proof.
  induction 1 as [|f s fields shapes [Hname Hd] _ IH]; simpl; [done|].
  rewrite <- Hname. by destruct (test (fst f)).
Qed.

Lemma findField_fieldsDecide {T} (fields : list (string * decoder T)) shapes key :
  fieldsDecide fields shapes →
  match findField fields key, findField shapes key with
  | Some d, Some ok => decides d ok
  | None, None => True
  | _, _ => False
  end.
Proof.
  intros H. unfold findField.
  pose proof (find_fieldsDecide fields shapes (λ n, bool_decide (n = key)) H) as H1.
  pose proof (find_fieldsDecide fields shapes (λ n, foldEq n key) H) as H2.
  simpl in *.
  destruct (find _ fields), (find _ shapes); try done.
  destruct (find _ fields), (find _ shapes); done.
Qed.

Lemma membersInto_ok {T} (fields : list (string * decoder T)) shapes members v :
  fieldsDecide fields shapes →
  snd (membersInto fields members v) = None ↔ forallb (okMember shapes) members = true.
Proof.
  intros H. revert v. induction members as [|[key value] members IH]; intros v; [done|].
  simpl. unfold okMember at 1. simpl.
  pose proof (findField_fieldsDecide fields shapes key H) as Hf.
  destruct (findField fields key) as [d|], (findField shapes key) as [ok|]; try done.
  - specialize (Hf value v). destruct (d value v) as [v' e].
    specialize (IH v'). destruct (membersInto fields members v') as [v'' e'].
    simpl in *. rewrite firstError_None, andb_true_iff. tauto.
Qed.

Lemma decides_struct {T} type (fields : list (string * decoder T)) shapes :
  fieldsDecide fields shapes → decides (structInto type fields) (okStruct shapes).
Proof.
  intros H j v. destruct j; simpl; try done.
  by apply membersInto_ok.
Qed.

Lemma decides_region : decides regionInto okRegion.
Proof.
  apply decides_struct.
  repeat constructor; simpl; apply decides_field, decides_int.
Qed.

Lemma decides_artifactLocation : decides artifactLocationInto okArtifactLocation.
Proof.
  apply decides_struct.
  repeat constructor; simpl; apply decides_field, decides_string.
Qed.

Lemma decides_physicalLocation : decides physicalLocationInto okPhysicalLocation.
Proof.
  apply decides_struct. repeat constructor; simpl; apply decides_field;
    first [apply decides_artifactLocation | apply decides_region].
Qed.

Lemma decides_location : decides locationInto okLocation.
Proof.
  apply decides_struct.
  repeat constructor; simpl; apply decides_field, decides_physicalLocation.
Qed.

Lemma decides_message : decides messageInto okMessage.
Proof.
  apply decides_struct.
  repeat constructor; simpl; apply decides_field, decides_string.
Qed.

Lemma decides_result : decides resultInto okResult.
Proof.
  apply decides_struct. repeat constructor; simpl; apply decides_field;
    first [apply decides_message | apply decides_slice, decides_location].
Qed.

Lemma decides_run : decides runInto okRun.
Proof.
  apply decides_struct.
  repeat constructor; simpl; apply decides_field, decides_slice, decides_result.
Qed.

Lemma decides_sarif : decides sarifInto okSarif.
Proof.
  apply decides_struct.
  repeat constructor; simpl; apply decides_field, decides_slice, decides_run.
Qed.

(** A member whose key names no field leaves no mark. *)
Lemma membersInto_unknown {T} (fields : list (string * decoder T)) pre key value post v :
  findField fields key = None →
  membersInto fields (pre ++ (key, value) :: post) v = membersInto fields (pre ++ post) v.
Proof.
  intros Hk. revert v. induction pre as [|[k j] pre IH]; intros v; simpl.
  - by rewrite Hk.
  - destruct (findField fields k) as [d|]; [|apply IH].
    destruct (d j v) as [v' e]. by rewrite IH.
Qed.

(** An object none of whose keys names a field changes nothing. *)
Lemma membersInto_all_unknown {T} (fields : list (string * decoder T)) members v :
  Forall (λ member, findField fields (fst member) = None) members →
  membersInto fields members v = (v, None).
Proof.
  induction 1 as [|[k j] members Hk _ IH]; simpl; [done|].
  simpl in Hk. by rewrite Hk.
Qed.

(** The keys that stand for the field [Runs]. *)
Lemma findField_Runs key :
  findField sarifFields key = None ↔ foldEq "Runs" key = false.
Proof.
  unfold findField, sarifFields. cbn [find fst snd].
  destruct (bool_decide ("Runs" = key)) eqn:E.
  - apply bool_decide_eq_true in E. subst key. done.
  - destruct (foldEq "Runs" key); done.
Qed.

End Decoders.

(** C4, as amended.  Decoding a document as the report succeeds exactly
    when each member that names a field of the report's structures
    holds a value of the kind of the field, or null; the members that
    name no field may hold anything and are ignored, in every structure
    of the report.  An object with no key for [Runs] decodes without
    error to a report with no run, for which nothing is printed. *)
Theorem Unmarshal_forward_compatible :
  (∀ doc, snd (Json.Unmarshal doc) = None ↔ Json.okSarif doc = true)
  ∧ (∀ (T : Type) type (fields : list (string * Json.decoder T)) pre key value post v,
       Json.findField fields key = None →
       Json.structInto type fields (JObject (pre ++ (key, value) :: post)) v
       = Json.structInto type fields (JObject (pre ++ post)) v)
  ∧ (∀ members (NoColor : bool) fs,
       Forall (λ member, Json.foldEq "Runs" (fst member) = false) members →
       Json.Unmarshal (JObject members) = ({| Runs := [] |}, None)
       ∧ printFindings NoColor fs {| Runs := [] |} = ([], Returned None)).
Proof.
  split; [|split].
  - intros doc. apply decides_sarif.
  - intros T type fields pre key value post v Hk. simpl.
    by apply membersInto_unknown.
  - intros members NoColor fs Hall. split; [|done].
    unfold Json.Unmarshal, Json.sarifInto, Json.structInto.
    apply membersInto_all_unknown.
    eapply Forall_impl; [exact Hall|]. intros member. apply findField_Runs.
Qed.

(** C4, as stated, fails: the document [{"runs": 5}] is well-formed JSON
    and does not decode as a report. *)
Lemma Unmarshal_forward_compatible_counterexample :
  Json.Unmarshal (JObject [("runs", JNumber "5")])
  = ({| Runs := [] |}, Some (UnmarshalTypeError "number" "[]main.SarifRun")).
Proof. reflexivity. Qed.

Lemma Unmarshal_forward_compatible_witness :
  Json.Unmarshal Sample.document
  = (Sample.report [Sample.finding "unused variable" [Sample.location "foo.go" 3 5]], None)
  ∧ Json.okSarif Sample.document = true
  ∧ Json.Unmarshal (JObject [("version", JString "2.1.0")]) = ({| Runs := [] |}, None).
Proof.
  destruct Unmarshal_forward_compatible as (Hok & _ & Hnone).
  split; [reflexivity|]. split.
  - apply Hok. reflexivity.
  - apply (Hnone [("version", JString "2.1.0")] true ∅). repeat constructor.
Defined.

(** * The runner and the orchestrator *)

Section Run.

Lemma hasPrefix_app prefix s : Str.hasPrefix prefix (prefix +:+ s) = true.
Proof.
  induction prefix as [|c prefix IH]; [done|].
  change (String c prefix +:+ s) with (String c (prefix +:+ s)).
  simpl. by rewrite decide_True.
Qed.

Lemma contains_app substr s : Str.contains substr (substr +:+ s) = true.
Proof.
  destruct (substr +:+ s) eqn:E; simpl; rewrite <- E, hasPrefix_app; done.
Qed.

Lemma length_app_string (a b : string) :
  String.length (a +:+ b) = (String.length a + String.length b)%nat.
Proof.
  induction a as [|c a IH]; [done|].
  change (String c a +:+ b) with (String c (a +:+ b)). simpl. by rewrite IH.
Qed.

(** [runAnalysis] returns a report or an error, never both and never
    neither. *)
Lemma runAnalysis_either sys dbPath w :
  match fst (runAnalysis sys dbPath w) with
  | (Some _, None) | (None, Some _) => True
  | _ => False
  end.
Proof.
  unfold runAnalysis.
  destruct (Run sys _ true w) as [[err|] w1]; [done|].
  destruct (ReadFile _ w1) as [[data [err|]] w2]; [done|].
  destruct (UnmarshalBytes sys data w2) as [[sarif [err|]] w3]; done.
Qed.

(** The name of the temporary directory ends in the pattern and a
    random part, and the directory is there once it is made. *)
Lemma mkdirTempLoop_ok sys prefix candidates w dbPath w0 :
  mkdirTempLoop sys prefix candidates w = ((dbPath, None), w0) →
  (∃ r, dbPath = prefix +:+ r)
  ∧ files w0 = <[dbPath := Dir]> (files w)
  ∧ stdout w0 = stdout w
  ∧ trace w0 = trace w ++ [EvMkdir dbPath].
Proof.
  induction candidates as [|r rest IH]; simpl; [done|].
  destruct (files w !! (prefix +:+ r)); [done|].
  destruct (mkdirError sys (prefix +:+ r)); [done|].
  intros [= <- <-]. eauto.
Qed.

Lemma MkdirTemp_ok sys dir pattern w dbPath w0 :
  MkdirTemp sys dir pattern w = ((dbPath, None), w0) →
  (String.length pattern ≤ String.length dbPath)%nat
  ∧ files w0 = <[dbPath := Dir]> (files w)
  ∧ stdout w0 = stdout w
  ∧ trace w0 = trace w ++ [EvMkdir dbPath].
Proof.
  unfold MkdirTemp. intros H. apply mkdirTempLoop_ok in H as ([r ->] & H).
  split; [|done].
  destruct (Str.endsWith "/" dir); rewrite !length_app_string; simpl; lia.
Qed.

Lemma extends_refl w : extends w w.
Proof. split; exists []; by rewrite app_nil_r. Qed.

Lemma extends_trans w1 w2 w3 : extends w1 w2 → extends w2 w3 → extends w1 w3.
Proof.
  intros [[t1 Ht1] [o1 Ho1]] [[t2 Ht2] [o2 Ho2]].
  split; eexists; [rewrite Ht2, Ht1|rewrite Ho2, Ho1]; by rewrite <- app_assoc.
Qed.

Lemma Run_spec sys args connected w :
  let done := exec sys args (files w) in
  Run sys args connected w
  = (runErr done,
     {| files := filesAfter done;
        stdout := stdout w ++ (if connected then written done else []);
        trace := trace w ++ [EvExec args] |}).
Proof. done. Qed.

Lemma Run_extends sys args connected w : extends w (snd (Run sys args connected w)).
Proof. rewrite Run_spec. split; simpl; by eexists. Qed.

Lemma extends_record ev w : extends w (record ev w).
Proof. split; simpl; [by eexists|exists []; by rewrite app_nil_r]. Qed.

Lemma extends_writeOut out w : extends w (writeOut out w).
Proof. split; simpl; [exists []; by rewrite app_nil_r|by eexists]. Qed.

Lemma ReadFile_extends name w : extends w (snd (ReadFile name w)).
Proof.
  unfold ReadFile. simpl.
  destruct (files w !! name) as [[|data]|]; apply extends_record.
Qed.

Lemma UnmarshalBytes_extends sys data w : extends w (snd (UnmarshalBytes sys data w)).
Proof.
  unfold UnmarshalBytes.
  destruct (syntax sys data); apply extends_record.
Qed.

Lemma runAnalysis_extends sys dbPath w : extends w (snd (runAnalysis sys dbPath w)).
Proof.
  unfold runAnalysis.
  pose proof (Run_extends sys (analyzeCommand dbPath) true w) as H1.
  unfold analyzeCommand in H1.
  destruct (Run sys _ true w) as [[err|] w1]; [done|]. simpl in H1.
  pose proof (ReadFile_extends (Path.Join [dbPath; "results.json"]) w1) as H2.
  destruct (ReadFile _ w1) as [[data [err|]] w2]; simpl in H2;
    [by eapply extends_trans|].
  pose proof (UnmarshalBytes_extends sys data w2) as H3.
  destruct (UnmarshalBytes sys data w2) as [[sarif [err|]] w3]; simpl in H3;
    eapply extends_trans; try done; by eapply extends_trans.
Qed.

(** What the body has done when it has launched the first command. *)
Lemma checkBody_launch sys dir customBuildCommand dbPath w :
  let command := fst (createCommand dir customBuildCommand dbPath) in
  let printed := snd (createCommand dir customBuildCommand dbPath) in
  let w' := snd (checkBody sys dir customBuildCommand dbPath w) in
  (∃ later, trace w' = trace w ++ EvExec command :: later)
  ∧ (∃ later, stdout w' = stdout w ++ printed ++ later).
Proof.
  intros command printed. unfold checkBody.
  destruct (createCommand dir customBuildCommand dbPath) as [cmd pr] eqn:Hc.
  subst command printed. cbn [fst snd]. cbv beta iota.
  rewrite Run_spec.
  set (w1 := {| files := _; stdout := _; trace := _ |}).
  assert (∀ w2, extends w1 w2 →
            (∃ later, trace w2 = trace w ++ EvExec cmd :: later)
            ∧ (∃ later, stdout w2 = stdout w ++ pr ++ later)) as Hext.
  { intros w2 [[t Ht] [o Ho]]. split.
    - exists t. rewrite Ht. simpl. by rewrite <- app_assoc.
    - exists o. rewrite Ho. simpl. by rewrite app_nil_r, <- app_assoc. }
  destruct (runErr _) as [err|]; [apply Hext, extends_refl|].
  pose proof (runAnalysis_extends sys dbPath w1) as HA.
  destruct (runAnalysis sys dbPath w1) as [[results [err|]] w2]; simpl in HA;
    [by apply Hext|].
  destruct results as [sarif|]; [|by apply Hext].
  destruct (printFindings _ _ sarif) as [out how].
  apply (Hext (writeOut out w2)).
  eapply extends_trans; [exact HA|apply extends_writeOut].
Qed.

End Run.

(** C5.  When the analyze process ends with an error — a non-zero exit
    or a failure to start — [runAnalysis] returns no report and the
    error "analysis failed: ..." that wraps the error of the process.
    Nothing else has happened: the only event is the launch of the
    process, so the results file was not read and nothing was decoded,
    and the only output is that of the process.  On every path
    [runAnalysis] returns either a report or an error, never both. *)
Theorem runAnalysis_failure sys dbPath w err :
  runErr (exec sys (analyzeCommand dbPath) (files w)) = Some err →
  let done := exec sys (analyzeCommand dbPath) (files w) in
  let failure := wrapError ("analysis failed: " +:+ Error err) err in
  runAnalysis sys dbPath w
  = ((None, Some failure),
     {| files := filesAfter done;
        stdout := stdout w ++ written done;
        trace := trace w ++ [EvExec (analyzeCommand dbPath)] |})
  ∧ Str.contains "analysis failed" (Error failure) = true
  ∧ Unwrap failure = Some err
  ∧ (∀ sys' dbPath' w',
       match fst (runAnalysis sys' dbPath' w') with
       | (Some _, None) | (None, Some _) => True
       | _ => False
       end).
Proof.
  intros Herr done failure. split; [|split; [|split]].
  - unfold runAnalysis. rewrite Run_spec.
    fold (analyzeCommand dbPath). by rewrite Herr.
  - subst failure. unfold Error at 1.
    change ("analysis failed: " +:+ Error err)
      with ("analysis failed" +:+ (": " +:+ Error err)).
    apply contains_app.
  - done.
  - apply runAnalysis_either.
Qed.

Lemma runAnalysis_failure_witness :
  runAnalysis Sample.failing "/tmp/db" Sample.world
  = ((None,
      Some (wrapError "analysis failed: exit status 2" (ProcessError "exit status 2"))),
     {| files := files Sample.world;
        stdout := [];
        trace := [EvExec (analyzeCommand "/tmp/db")] |}).
Proof.
  pose proof (runAnalysis_failure Sample.failing "/tmp/db" Sample.world
                (ProcessError "exit status 2") eq_refl) as [H _].
  exact H.
Defined.

Section CreateCommand.

Lemma followedBy_app a b l1 l2 : followedBy a b (l1 ++ a :: b :: l2) = true.
Proof.
  induction l1 as [|x l1 IH].
  - simpl. by rewrite !bool_decide_eq_true_2 by done.
  - change ((x :: l1) ++ a :: b :: l2) with (x :: (l1 ++ a :: b :: l2)).
    destruct (l1 ++ a :: b :: l2) as [|y rest] eqn:E.
    + by destruct l1.
    + simpl. simpl in IH. rewrite IH. apply orb_true_r.
Qed.

Lemma createCommand_spec dir customBuildCommand dbPath :
  createCommand dir customBuildCommand dbPath
  = let args :=
      ["codeql"; "database"; "create"; "--language=go"; "--source-root"; dir]
        ++ (if decide (customBuildCommand = EmptyString) then []
            else ["--command"; customBuildCommand])
        ++ [dbPath] in
    (args,
     (if decide (customBuildCommand = EmptyString) then []
      else ["Using custom build command: " +:+ customBuildCommand +:+ Str.nl])
       ++ ["[" +:+ Str.join " " args +:+ "]" +:+ Str.nl]).
Proof.
  unfold createCommand.
  destruct (decide (customBuildCommand ≠ EmptyString)) as [Hne|He];
    destruct (decide (customBuildCommand = EmptyString)) as [He'|Hne']; try done.
Qed.

End CreateCommand.

(** C6, as amended.  Once the temporary directory is made, the first
    command launched is [codeql database create --language=go
    --source-root <dir>], then [--command <customBuildCommand>] if and
    only if [customBuildCommand] is not empty, then the database path,
    which is the last argument in both cases.  With a build command, a
    notice naming it is printed before the argument list; without one
    there is no notice and no flag is added, so that the list holds no
    [--command] token unless [dir] is itself that string. *)
Theorem runMigrationCheck_command sys dir customBuildCommand w dbPath w0 :
  MkdirTemp sys (TempDir sys) "cosmos-migration-db" w = ((dbPath, None), w0) →
  let flag :=
    if decide (customBuildCommand = EmptyString) then []
    else ["--command"; customBuildCommand] in
  let notice :=
    if decide (customBuildCommand = EmptyString) then []
    else ["Using custom build command: " +:+ customBuildCommand +:+ Str.nl] in
  let args :=
    ["codeql"; "database"; "create"; "--language=go"; "--source-root"; dir]
      ++ flag ++ [dbPath] in
  let w' := snd (runMigrationCheck sys dir customBuildCommand w) in
  (∃ later, trace w' = trace w ++ EvMkdir dbPath :: EvExec args :: later)
  ∧ (∃ later,
       stdout w'
       = stdout w ++ notice ++ ["[" +:+ Str.join " " args +:+ "]" +:+ Str.nl] ++ later)
  ∧ last args = Some dbPath
  ∧ (followedBy "--command" customBuildCommand args = true
     ↔ customBuildCommand ≠ EmptyString)
  ∧ (customBuildCommand = EmptyString → dir ≠ "--command" → "--command" ∉ args).
Proof.
  intros Hmk flag notice args w'.
  pose proof (MkdirTemp_ok _ _ _ _ _ _ Hmk) as (Hlen & _ & Hout & Htrace).
  simpl in Hlen.
  assert (dbPath ≠ EmptyString) as Hdb by (intros ->; simpl in Hlen; lia).
  assert (dbPath ≠ "--command") as Hdb' by (intros ->; simpl in Hlen; lia).
  split; [|split; [|split; [|split]]].
  - subst w'. unfold runMigrationCheck. rewrite Hmk.
    pose proof (checkBody_launch sys dir customBuildCommand dbPath w0) as [[later Hl] _].
    rewrite createCommand_spec in Hl. cbn [fst] in Hl.
    destruct (checkBody sys dir customBuildCommand dbPath w0) as [how w1].
    simpl in Hl. simpl. exists (later ++ [EvRemoveAll dbPath]).
    rewrite Hl, Htrace. by rewrite <- !app_assoc.
  - subst w'. unfold runMigrationCheck. rewrite Hmk.
    pose proof (checkBody_launch sys dir customBuildCommand dbPath w0) as [_ [later Hl]].
    rewrite createCommand_spec in Hl. cbn [fst snd] in Hl.
    destruct (checkBody sys dir customBuildCommand dbPath w0) as [how w1].
    simpl in Hl. simpl. exists later.
    rewrite Hl, Hout. by rewrite <- !app_assoc.
  - subst args. by rewrite !app_assoc, last_snoc.
  - subst args flag. destruct (decide (customBuildCommand = EmptyString)) as [->|Hne].
    + split; [|done]. simpl.
      repeat case_bool_decide; simplify_eq; done.
    + split; [done|]. intros _.
      apply (followedBy_app "--command" customBuildCommand
               ["codeql"; "database"; "create"; "--language=go"; "--source-root"; dir]
               [dbPath]).
  - intros -> Hdir. subst args flag. simpl.
    rewrite !not_elem_of_cons. repeat split; try done.
    apply not_elem_of_nil.
Qed.

Lemma runMigrationCheck_command_witness :
  let w' := snd (runMigrationCheck Sample.failing "." "make build" Sample.world) in
  (∃ later,
     trace w'
     = EvMkdir "/tmp/cosmos-migration-db2"
       :: EvExec ["codeql"; "database"; "create"; "--language=go"; "--source-root"; ".";
                  "--command"; "make build"; "/tmp/cosmos-migration-db2"]
       :: later)
  ∧ (∃ later,
       stdout w'
       = ("Using custom build command: make build" +:+ Str.nl)
         :: ("[codeql database create --language=go --source-root . --command make build /tmp/cosmos-migration-db2]"
               +:+ Str.nl)
         :: later).
Proof.
  pose proof (runMigrationCheck_command Sample.failing "." "make build" Sample.world
                "/tmp/cosmos-migration-db2" _ eq_refl) as (Ht & Ho & _).
  split; [exact Ht | exact Ho].
Defined.

(** C6, as stated, fails: with the directory [--command] and no build
    command, the argument list holds a [--command] token. *)
Lemma runMigrationCheck_command_counterexample :
  trace (snd (runMigrationCheck Sample.failing "--command" EmptyString Sample.world))
  = [ EvMkdir "/tmp/cosmos-migration-db2";
      EvExec ["codeql"; "database"; "create"; "--language=go"; "--source-root";
              "--command"; "/tmp/cosmos-migration-db2"];
      EvRemoveAll "/tmp/cosmos-migration-db2" ]
  ∧ "--command" ∈ ["codeql"; "database"; "create"; "--language=go"; "--source-root";
                    "--command"; "/tmp/cosmos-migration-db2"].
Proof. split; [reflexivity|]. repeat constructor. Qed.

Section Cleanup.

Lemma under_self root : Path.under root root = true.
Proof. unfold Path.under. by rewrite bool_decide_eq_true_2. Qed.

Lemma RemoveAll_under path w p :
  Path.under path p = true → files (RemoveAll path w) !! p = None.
Proof.
  intros Hu. unfold RemoveAll. simpl.
  apply map_lookup_filter_None_2. right. intros x _. simpl. by rewrite Hu.
Qed.

Lemma RemoveAll_other path w p :
  Path.under path p = false → files (RemoveAll path w) !! p = files w !! p.
Proof.
  intros Hu. unfold RemoveAll. simpl.
  destruct (files w !! p) as [x|] eqn:E.
  - apply map_lookup_filter_Some. by split.
  - apply map_lookup_filter_None_2. by left.
Qed.

End Cleanup.

(** C9.  Once [os.MkdirTemp] has made the temporary directory, the
    last thing [runMigrationCheck] does, however the rest ends — by an
    error of the first command, of the analysis or of the renderer, by
    a normal return or by a panic — is to remove the directory with all
    that lies below it: when the function is left, the directory and
    every path below it are gone. *)
Theorem runMigrationCheck_cleanup sys dir customBuildCommand w dbPath w0 :
  MkdirTemp sys (TempDir sys) "cosmos-migration-db" w = ((dbPath, None), w0) →
  let w' := snd (runMigrationCheck sys dir customBuildCommand w) in
  files w0 !! dbPath = Some Dir
  ∧ files w' !! dbPath = None
  ∧ (∀ p, Path.under dbPath p = true → files w' !! p = None)
  ∧ (∃ before, trace w' = before ++ [EvRemoveAll dbPath])
  ∧ runMigrationCheck sys dir customBuildCommand w
    = (fst (checkBody sys dir customBuildCommand dbPath w0),
       RemoveAll dbPath (snd (checkBody sys dir customBuildCommand dbPath w0))).
Proof.
  intros Hmk w'.
  pose proof (MkdirTemp_ok _ _ _ _ _ _ Hmk) as (_ & Hfiles & _ & _).
  assert (runMigrationCheck sys dir customBuildCommand w
          = (fst (checkBody sys dir customBuildCommand dbPath w0),
             RemoveAll dbPath (snd (checkBody sys dir customBuildCommand dbPath w0))))
    as Hrun.
  { unfold runMigrationCheck. rewrite Hmk.
    by destruct (checkBody sys dir customBuildCommand dbPath w0). }
  subst w'. rewrite Hrun. cbn [snd].
  split; [|split; [|split; [|split]]].
  - rewrite Hfiles. apply lookup_insert_eq.
  - apply RemoveAll_under, under_self.
  - intros p. apply RemoveAll_under.
  - by eexists.
  - done.
Qed.

Lemma runMigrationCheck_cleanup_witness :
  fst (runMigrationCheck Sample.working "." EmptyString Sample.world)
  = Panicked "strings: negative Repeat count"
  ∧ files (snd (runMigrationCheck Sample.working "." EmptyString Sample.world))
      !! "/tmp/cosmos-migration-db2/results.json" = None
  ∧ files (snd (runMigrationCheck Sample.working "." EmptyString Sample.world))
      !! "/tmp/cosmos-migration-db2" = None.
Proof.
  pose proof (runMigrationCheck_cleanup Sample.working "." EmptyString Sample.world
                "/tmp/cosmos-migration-db2" _ eq_refl) as (_ & Hdir & Hbelow & _).
  split; [reflexivity|]. split; [|exact Hdir].
  apply Hbelow. reflexivity.
Defined.

(** * More on the renderer *)

Section RenderCases.

Context (NoColor : bool) (fs : gmap string node).



(** The loop body agrees on file systems that agree on the file of the
    finding. *)
Lemma renderLocation_files fs' finding :
  fs !! Uri (ArtifactLocation (PhysicalLocation (snd finding)))
  = fs' !! Uri (ArtifactLocation (PhysicalLocation (snd finding))) →
  renderLocation NoColor fs finding = renderLocation NoColor fs' finding.
Proof.
  destruct finding as [result location]. simpl. intros Heq.
  unfold renderLocation, sourceLine, readSpecificLine. by rewrite Heq.
Qed.

End RenderCases.

Section RangeOver.

Lemma rangeOver_ext_in {A} (xs : list A) (body body' : A → prog unit) :
  (∀ x, x ∈ xs → body x = body' x) → rangeOver xs body = rangeOver xs body'.
Proof.
  induction xs as [|x xs IH]; intros H; [done|].
  simpl. rewrite (H x) by (by left). rewrite IH; [done|].
  intros y Hy. apply H. by right.
Qed.

Lemma findings_app runs runs' :
  findings {| Runs := runs ++ runs' |}
  = findings {| Runs := runs |} ++ findings {| Runs := runs' |}.
Proof. unfold findings. simpl. apply flat_map_app. Qed.

End RangeOver.

Section Endings.

Context (NoColor : bool) (fs : gmap string node).



End Endings.



(** X3.  Rendering a report is rendering its runs one after the
    other: the runs of a report in two parts are rendered as the first
    part and then, if that returned nil, the second part; an error or a
    panic in the first part is the end. *)
Theorem printFindings_app (NoColor : bool) fs runs runs' :
  printFindings NoColor fs {| Runs := runs ++ runs' |}
  = match printFindings NoColor fs {| Runs := runs |} with
    | (out, Returned None) =>
        let '(out', how) := printFindings NoColor fs {| Runs := runs' |} in
        (out ++ out', how)
    | ended => ended
    end.
Proof.
  rewrite !printFindings_findings, findings_app, rangeOver_app.
  pose proof (rangeOver_never_nil NoColor fs (findings {| Runs := runs |})) as Hnil.
  destruct (rangeOver (findings {| Runs := runs |}) _) as [out [[]|[err|]|msg]];
    try done.
  - destruct (rangeOver (findings {| Runs := runs' |}) _) as [out' [[]|err|msg]];
      cbn; by rewrite ?app_nil_r.
  - by destruct (Hnil out).
Qed.

(** X4.  [printFindings] looks at no file but those its findings name:
    on two file systems that hold the same under every URI of the
    report, it writes the same and ends the same. *)
Theorem printFindings_files (NoColor : bool) fs fs' sarif :
  (∀ finding, finding ∈ findings sarif →
     fs !! Uri (ArtifactLocation (PhysicalLocation (snd finding)))
     = fs' !! Uri (ArtifactLocation (PhysicalLocation (snd finding)))) →
  printFindings NoColor fs sarif = printFindings NoColor fs' sarif.
Proof.
  intros Hsame. rewrite !printFindings_findings.
  rewrite (rangeOver_ext_in _ _ (renderLocation NoColor fs')); [done|].
  intros finding Hin. by apply renderLocation_files, Hsame.
Qed.

Lemma printFindings_files_witness :
  printFindings true Sample.tree Sample.unused
  = printFindings true (<["bar.go" := File "package bar"]> Sample.tree) Sample.unused.
Proof.
  apply printFindings_files. intros finding Hin.
  repeat (apply elem_of_cons in Hin as [->|Hin]; [reflexivity|]).
  by apply elem_of_nil in Hin.
Defined.

(** * More on the line reader *)

Section Lines.

Lemma fileLines_no_LF data :
  Forall (λ l, Str.LF ∉ String.list_ascii_of_string l) (fileLines data).
Proof.
  induction data as [|c data IH]; simpl; [constructor|].
  destruct (decide (c = Str.LF)) as [->|Hc].
  - constructor; [apply not_elem_of_nil|done].
  - destruct (fileLines data) as [|l ls].
    + constructor; [|constructor]. simpl.
      rewrite not_elem_of_cons. split; [done|apply not_elem_of_nil].
    + apply Forall_cons in IH as [Hl Hls]. constructor; [|done].
      simpl. rewrite not_elem_of_cons. by split.
Qed.

Lemma dropCR_chars l c :
  c ∈ String.list_ascii_of_string (Scanner.dropCR l) →
  c ∈ String.list_ascii_of_string l.
Proof.
  induction l as [|d l IH]; [done|].
  destruct l as [|e l].
  - simpl. destruct (decide (d = Str.CR)); [by intros ?%elem_of_nil|done].
  - change (Scanner.dropCR (String d (String e l)))
      with (String d (Scanner.dropCR (String e l))).
    cbn [String.list_ascii_of_string].
    rewrite !(elem_of_cons _ c d). intros [->|H]; [by left|right; by apply IH].
Qed.

(** What a success of the loop means. *)
Lemma readLines_success ls currentLine targetLine text :
  readLines ls currentLine targetLine = (text, None) →
  currentLine ≤ targetLine
  ∧ ∃ l, ls !! Z.to_nat (targetLine - currentLine) = Some l
         ∧ text = Scanner.dropCR l
         ∧ Forall fits (take (S (Z.to_nat (targetLine - currentLine))) ls).
Proof.
  revert currentLine. induction ls as [|x ls IH]; intros cur; simpl; [done|].
  destruct (Str.len x <? Scanner.MaxScanTokenSize) eqn:Hx; [|done].
  apply Z.ltb_lt in Hx.
  destruct (cur =? targetLine) eqn:E.
  - apply Z.eqb_eq in E. subst cur. intros [= <-].
    split; [lia|]. rewrite Z.sub_diag. exists x. simpl.
    repeat split; try done. constructor; [done|]. by rewrite take_0.
  - apply Z.eqb_neq in E. intros H. apply IH in H as (Hle & l & Hl & -> & Hfit).
    split; [lia|]. exists l.
    assert (Z.to_nat (targetLine - cur) = S (Z.to_nat (targetLine - (cur + 1)))) as ->
      by lia.
    repeat split; try done. simpl. by constructor.
Qed.

(** The loop stops at the first line that does not fit, if the target
    is not before it. *)
Lemma readLines_too_long ls currentLine targetLine k l :
  ls !! k = Some l →
  ¬ fits l →
  Forall fits (take k ls) →
  currentLine + Z.of_nat k ≤ targetLine ∨ targetLine < currentLine →
  readLines ls currentLine targetLine = (EmptyString, Some ErrTooLong).
Proof.
  revert currentLine k. induction ls as [|x ls IH]; intros cur k Hl Hlong Hfit Ht; [done|].
  simpl. destruct k as [|k].
  - simpl in Hl. injection Hl as ->.
    unfold fits in Hlong. by rewrite (proj2 (Z.ltb_ge _ _)) by lia.
  - simpl in Hl, Hfit. apply Forall_cons in Hfit as [Hx Hfit].
    unfold fits in Hx. apply Z.ltb_lt in Hx. rewrite Hx.
    assert ((cur =? targetLine) = false) as -> by lia.
    apply (IH (cur + 1) k); try done. lia.
Qed.


(** The lines after the target play no part. *)
Lemma readLines_app ls ls' currentLine targetLine :
  currentLine ≤ targetLine < currentLine + Z.of_nat (length ls) →
  readLines (ls ++ ls') currentLine targetLine = readLines ls currentLine targetLine.
Proof.
  revert currentLine. induction ls as [|x ls IH]; intros cur Ht; simpl in *; [lia|].
  destruct (Str.len x <? _); [|done].
  destruct (cur =? targetLine) eqn:E; [done|].
  apply Z.eqb_neq in E. apply IH. lia.
Qed.

Lemma fileLines_nl_nonempty h : fileLines (h +:+ Str.nl) ≠ [].
Proof.
  induction h as [|c h IH]; [done|].
  change (String c h +:+ Str.nl) with (String c (h +:+ Str.nl)). simpl.
  destruct (decide (c = Str.LF)); [done|].
  by destruct (fileLines (h +:+ Str.nl)).
Qed.

(** The lines of a file that goes on after a line feed. *)
Lemma fileLines_app_nl h tail :
  fileLines ((h +:+ Str.nl) +:+ tail) = fileLines (h +:+ Str.nl) ++ fileLines tail.
Proof.
  induction h as [|c h IH]; [done|].
  change ((String c h +:+ Str.nl) +:+ tail) with (String c ((h +:+ Str.nl) +:+ tail)).
  change (String c h +:+ Str.nl) with (String c (h +:+ Str.nl)).
  simpl. destruct (decide (c = Str.LF)); [by rewrite IH|].
  rewrite IH. pose proof (fileLines_nl_nonempty h).
  by destruct (fileLines (h +:+ Str.nl)).
Qed.

(** The first line of a file that starts with a text without line
    feed, a line feed after it. *)
Lemma fileLines_line l rest :
  Str.LF ∉ String.list_ascii_of_string l →
  fileLines (l +:+ Str.nl +:+ rest) = l :: fileLines rest.
Proof.
  induction l as [|c l IH]; intros Hl; [done|].
  change (String c l +:+ Str.nl +:+ rest) with (String c (l +:+ Str.nl +:+ rest)).
  simpl in Hl. apply not_elem_of_cons in Hl as [Hc Hl].
  simpl. destruct (decide (c = Str.LF)) as [->|_]; [done|].
  by rewrite IH.
Qed.

Lemma replicate_chars n (s : string) c :
  c ∈ String.list_ascii_of_string (Str.replicate n s) →
  c ∈ String.list_ascii_of_string s.
Proof.
  induction n as [|n IH]; simpl; [by intros ?%elem_of_nil|].
  assert (∀ a b, c ∈ String.list_ascii_of_string (a +:+ b) →
                 c ∈ String.list_ascii_of_string a ∨ c ∈ String.list_ascii_of_string b)
    as Happ.
  { intros a b. induction a as [|d a IHa]; [by right|].
    change (String d a +:+ b) with (String d (a +:+ b)). simpl.
    rewrite !elem_of_cons. intros [->|H]; [by left; left|].
    destruct (IHa H); [left; by right|by right]. }
  intros [H|H]%Happ; [done|by apply IH].
Qed.

Lemma length_replicate n (s : string) :
  String.length (Str.replicate n s) = (n * String.length s)%nat.
Proof.
  induction n as [|n IH]; [done|].
  simpl. rewrite length_app_string, IH. lia.
Qed.

Lemma longLine_no_LF : Str.LF ∉ String.list_ascii_of_string Sample.longLine.
Proof.
  unfold Sample.longLine. intros H.
  apply (replicate_chars (Z.to_nat 65536) "a" Str.LF) in H.
  change (String.list_ascii_of_string "a") with ["a"%char] in H.
  apply elem_of_cons in H as [H|H]; [discriminate|by apply elem_of_nil in H].
Qed.

Lemma longLine_len : Str.len Sample.longLine = 65536.
Proof.
  unfold Str.len, Sample.longLine. rewrite length_replicate. simpl String.length. lia.
Qed.

End Lines.

(** X5.  What a success of [readSpecificLine] means: the path holds a
    regular file, the target is a line number of the file, from 1 to
    the line count, that line and the lines before it are shorter than
    the scanner's buffer, and the text returned is that line without
    one carriage return at its end.  The text never holds a line
    feed. *)
Theorem readSpecificLine_success fs filePath targetLine text :
  readSpecificLine fs filePath targetLine = (text, None) →
  ∃ data l,
    fs !! filePath = Some (File data)
    ∧ 1 ≤ targetLine ≤ lineCount data
    ∧ lineAt data targetLine = Some l
    ∧ text = Scanner.dropCR l
    ∧ Forall fits (take (Z.to_nat targetLine) (fileLines data))
    ∧ Str.LF ∉ String.list_ascii_of_string text.
Proof.
  intros Hread.
  destruct (fs !! filePath) as [[|data]|] eqn:Hf;
    try (unfold readSpecificLine in Hread; rewrite Hf in Hread; discriminate).
  rewrite (readSpecificLine_File _ _ _ _ Hf) in Hread.
  apply readLines_success in Hread as (Hle & l & Hl & -> & Hfit).
  exists data, l. split; [done|].
  pose proof (lookup_lt_Some _ _ _ Hl) as Hlt.
  split; [unfold lineCount; lia|].
  split; [unfold lineAt; by rewrite (proj2 (Z.ltb_ge _ _)) by lia|].
  split; [done|].
  split; [by replace (Z.to_nat targetLine) with (S (Z.to_nat (targetLine - 1))) by lia|].
  intros Hin. apply dropCR_chars in Hin.
  pose proof (fileLines_no_LF data) as Hno.
  rewrite Forall_lookup in Hno. by apply (Hno _ _ Hl).
Qed.

Lemma readSpecificLine_success_witness :
  ∃ data l,
    Sample.tree !! "foo.go" = Some (File data)
    ∧ 1 ≤ 3 ≤ lineCount data
    ∧ lineAt data 3 = Some l
    ∧ "x := 1" = Scanner.dropCR l
    ∧ Forall fits (take (Z.to_nat 3) (fileLines data))
    ∧ Str.LF ∉ String.list_ascii_of_string "x := 1".
Proof. apply (readSpecificLine_success Sample.tree "foo.go" 3 "x := 1"). reflexivity. Defined.



(** X7.  A target below 1 is never found: whatever the path holds,
    [readSpecificLine] returns an error and the empty text. *)
Theorem readSpecificLine_below_one fs filePath targetLine :
  targetLine < 1 →
  ∃ err, readSpecificLine fs filePath targetLine = (EmptyString, Some err).
Proof.
  intros Hlt. destruct (fs !! filePath) as [[|data]|] eqn:Hf.
  - unfold readSpecificLine. rewrite Hf. by eexists.
  - rewrite (readSpecificLine_File _ _ _ _ Hf). apply readLines_beyond. by left.
  - unfold readSpecificLine. rewrite Hf. by eexists.
Qed.

Lemma readSpecificLine_below_one_witness :
  ∃ err, readSpecificLine Sample.tree "foo.go" (-2) = (EmptyString, Some err).
Proof. apply readSpecificLine_below_one. lia. Defined.

(** X8.  A line of 65536 bytes or more stops the reader, at the target
    or before it: when line [k + 1] is the first that long and the
    target is not before it, [readSpecificLine] returns the scanner's
    "token too long", whatever the other lines hold. *)
Theorem readSpecificLine_too_long fs filePath data targetLine k l :
  fs !! filePath = Some (File data) →
  fileLines data !! k = Some l →
  Scanner.MaxScanTokenSize ≤ Str.len l →
  Forall fits (take k (fileLines data)) →
  Z.of_nat k < targetLine →
  readSpecificLine fs filePath targetLine = (EmptyString, Some ErrTooLong).
Proof.
  intros Hf Hl Hlong Hfit Ht. rewrite (readSpecificLine_File _ _ _ _ Hf).
  apply (readLines_too_long _ _ _ k l); try done.
  - unfold fits. lia.
  - left. lia.
Qed.

Lemma readSpecificLine_too_long_witness :
  readSpecificLine
    {[ "gen.go" := File ("package gen" +:+ Str.nl +:+ Sample.longLine +:+ Str.nl
                         +:+ "x := 1" +:+ Str.nl) ]}
    "gen.go" 3
  = (EmptyString, Some ErrTooLong).
Proof.
  assert (fileLines ("package gen" +:+ Str.nl +:+ Sample.longLine +:+ Str.nl
                     +:+ "x := 1" +:+ Str.nl)
          = "package gen" :: Sample.longLine :: fileLines ("x := 1" +:+ Str.nl)) as Hlines.
  { rewrite fileLines_line
      by (simpl; rewrite !not_elem_of_cons; repeat split; try done; apply not_elem_of_nil).
    by rewrite fileLines_line by apply longLine_no_LF. }
  apply (readSpecificLine_too_long _ "gen.go"
           ("package gen" +:+ Str.nl +:+ Sample.longLine +:+ Str.nl
            +:+ "x := 1" +:+ Str.nl) 3 1 Sample.longLine).
  - apply lookup_singleton_eq.
  - by rewrite Hlines.
  - rewrite longLine_len. vm_compute. congruence.
  - rewrite Hlines. repeat constructor.
  - lia.
Defined.

(** X9.  The reader looks no further than the target line: what
    follows the line feed of a line at or after the target, however
    long its lines, does not change the result. *)
Theorem readSpecificLine_prefix fs fs' filePath head tail targetLine :
  fs !! filePath = Some (File ((head +:+ Str.nl) +:+ tail)) →
  fs' !! filePath = Some (File (head +:+ Str.nl)) →
  1 ≤ targetLine ≤ lineCount (head +:+ Str.nl) →
  readSpecificLine fs filePath targetLine = readSpecificLine fs' filePath targetLine.
Proof.
  intros Hf Hf' Ht.
  rewrite (readSpecificLine_File _ _ _ _ Hf), (readSpecificLine_File _ _ _ _ Hf').
  rewrite fileLines_app_nl. apply readLines_app. unfold lineCount in Ht. lia.
Qed.

Lemma readSpecificLine_prefix_witness :
  readSpecificLine {[ "foo.go" := File (Sample.source +:+ "y := 2") ]} "foo.go" 3
  = readSpecificLine Sample.tree "foo.go" 3.
Proof.
  apply (readSpecificLine_prefix _ _ "foo.go"
           ("package main" +:+ Str.nl +:+ Str.nl +:+ "x := 1") "y := 2" 3).
  - apply lookup_singleton_eq.
  - reflexivity.
  - split; [lia|]. vm_compute. congruence.
Defined.

(** * More on the runner and the orchestrator *)

Section RunnerCases.

(** [runAnalysis], step by step. *)
Lemma runAnalysis_cases sys dbPath w :
  let done := exec sys (analyzeCommand dbPath) (files w) in
  let resultsPath := Path.Join [dbPath; "results.json"] in
  let w1 :=
    {| files := filesAfter done;
       stdout := stdout w ++ written done;
       trace := trace w ++ [EvExec (analyzeCommand dbPath)] |} in
  runAnalysis sys dbPath w
  = match runErr done with
    | Some err => ((None, Some (Errorf_w "analysis failed: " err)), w1)
    | None =>
        match filesAfter done !! resultsPath with
        | None =>
            ((None, Some (PathError "open" resultsPath ENOENT)),
             record (EvReadFile resultsPath) w1)
        | Some Dir =>
            ((None, Some (PathError "read" resultsPath EISDIR)),
             record (EvReadFile resultsPath) w1)
        | Some (File data) =>
            let w3 := record (EvUnmarshal data) (record (EvReadFile resultsPath) w1) in
            match syntax sys data with
            | None => ((None, Some (SyntaxError "invalid character")), w3)
            | Some doc =>
                match Json.Unmarshal doc with
                | (_, Some err) => ((None, Some err), w3)
                | (sarif, None) => ((Some sarif, None), w3)
                end
            end
        end
    end.
Proof.
  intros done resultsPath w1. unfold runAnalysis. rewrite Run_spec.
  fold (analyzeCommand dbPath). fold done. fold w1. fold resultsPath.
  destruct (runErr done); [done|].
  unfold ReadFile. cbn [files record]. change (files w1) with (filesAfter done).
  destruct (filesAfter done !! resultsPath) as [[|data]|]; try done.
  unfold UnmarshalBytes.
  destruct (syntax sys data) as [doc|]; [|done].
  by destruct (Json.Unmarshal doc) as [sarif [err|]].
Qed.

(** [runAnalysis] leaves the files as the process left them. *)
Lemma runAnalysis_files sys dbPath w :
  files (snd (runAnalysis sys dbPath w))
  = filesAfter (exec sys (analyzeCommand dbPath) (files w)).
Proof.
  rewrite runAnalysis_cases. cbv zeta.
  destruct (runErr _); [done|].
  destruct (filesAfter _ !! _) as [[|data]|]; try done.
  destruct (syntax sys data) as [doc|]; [|done].
  by destruct (Json.Unmarshal doc) as [sarif [err|]].
Qed.

(** A failed [os.MkdirTemp] has changed nothing. *)
Lemma mkdirTempLoop_failure sys prefix candidates w path err w0 :
  mkdirTempLoop sys prefix candidates w = ((path, Some err), w0) →
  path = EmptyString ∧ w0 = w.
Proof.
  induction candidates as [|r rest IH]; simpl.
  - by intros [= <- _ <-].
  - destruct (files w !! (prefix +:+ r)); [done|].
    destruct (mkdirError sys (prefix +:+ r)); [|done].
    by intros [= <- _ <-].
Qed.

(** The body of [runMigrationCheck] after the [defer], step by step. *)
Lemma checkBody_cases sys dir customBuildCommand dbPath w :
  let command := fst (createCommand dir customBuildCommand dbPath) in
  let printed := snd (createCommand dir customBuildCommand dbPath) in
  let created := exec sys command (files w) in
  let w1 :=
    {| files := filesAfter created;
       stdout := stdout w ++ printed;
       trace := trace w ++ [EvExec command] |} in
  checkBody sys dir customBuildCommand dbPath w
  = match runErr created with
    | Some err => (Returned (Some err), w1)
    | None =>
        match runAnalysis sys dbPath w1 with
        | ((_, Some err), w2) => (Returned (Some err), w2)
        | ((None, None), w2) =>
            (Panicked "invalid memory address or nil pointer dereference", w2)
        | ((Some sarif, None), w2) =>
            (snd (printFindings (NoColor sys) (files w2) sarif),
             writeOut (fst (printFindings (NoColor sys) (files w2) sarif)) w2)
        end
    end.
Proof.
  intros command printed created w1. unfold checkBody.
  destruct (createCommand dir customBuildCommand dbPath) as [cmd pr] eqn:Hc.
  subst command printed. cbn [fst snd] in *. cbv beta iota.
  rewrite Run_spec. cbv zeta. cbn [files stdout trace writeOut].
  rewrite app_nil_r. fold created. fold w1.
  destruct (runErr created); [done|].
  destruct (runAnalysis sys dbPath w1) as [[[sarif|] [err|]] w2]; try done.
  by destruct (printFindings (NoColor sys) (files w2) sarif).
Qed.

End RunnerCases.





(** X12.  When [os.MkdirTemp] fails, [runMigrationCheck] returns its
    error and has done nothing: no process launched, nothing printed,
    nothing removed, no file changed. *)
Theorem runMigrationCheck_mkdir_failure sys dir customBuildCommand w path err w0 :
  MkdirTemp sys (TempDir sys) "cosmos-migration-db" w = ((path, Some err), w0) →
  runMigrationCheck sys dir customBuildCommand w = (Returned (Some err), w).
Proof.
  intros Hmk. unfold runMigrationCheck. rewrite Hmk.
  unfold MkdirTemp in Hmk. by apply mkdirTempLoop_failure in Hmk as [_ ->].
Qed.

Lemma runMigrationCheck_mkdir_failure_witness :
  let taken :=
    {| files := <["/tmp/cosmos-migration-db2" := Dir]> (files Sample.world);
       stdout := [];
       trace := [] |} in
  runMigrationCheck Sample.working "." "make build" taken
  = (Returned (Some (PathError "mkdirtemp" "/tmp/cosmos-migration-db*" EEXIST)), taken).
Proof.
  intros taken.
  apply (runMigrationCheck_mkdir_failure Sample.working "." "make build" taken
           EmptyString _ taken).
  reflexivity.
Defined.

(** X13.  When the database creation fails, [runMigrationCheck]
    returns the error of the process as it is, the analysis is never
    launched, and the temporary directory is removed.  The output is
    the notice and the argument list: what the creation process wrote
    is not shown. *)
Theorem runMigrationCheck_create_failure sys dir customBuildCommand w dbPath w0 err :
  MkdirTemp sys (TempDir sys) "cosmos-migration-db" w = ((dbPath, None), w0) →
  runErr (exec sys (fst (createCommand dir customBuildCommand dbPath)) (files w0))
  = Some err →
  let command := fst (createCommand dir customBuildCommand dbPath) in
  let w' := snd (runMigrationCheck sys dir customBuildCommand w) in
  fst (runMigrationCheck sys dir customBuildCommand w) = Returned (Some err)
  ∧ trace w' = trace w ++ [EvMkdir dbPath; EvExec command; EvRemoveAll dbPath]
  ∧ stdout w' = stdout w ++ snd (createCommand dir customBuildCommand dbPath)
  ∧ (∀ p, Path.under dbPath p = false →
          files w' !! p = filesAfter (exec sys command (files w0)) !! p).
Proof.
  intros Hmk Herr command w'. subst w' command.
  pose proof (MkdirTemp_ok _ _ _ _ _ _ Hmk) as (_ & _ & Hout & Htrace).
  unfold runMigrationCheck. rewrite Hmk, checkBody_cases. cbv zeta.
  rewrite Herr. cbn [fst snd].
  split; [done|]. split; [|split].
  - simpl. rewrite Htrace. by rewrite <- !app_assoc.
  - simpl. by rewrite Hout.
  - intros p Hp. by rewrite RemoveAll_other.
Qed.

Lemma runMigrationCheck_create_failure_witness :
  runMigrationCheck Sample.failing "." EmptyString Sample.world
  = (Returned (Some (ProcessError "exit status 2")),
     snd (runMigrationCheck Sample.failing "." EmptyString Sample.world))
  ∧ trace (snd (runMigrationCheck Sample.failing "." EmptyString Sample.world))
    = [ EvMkdir "/tmp/cosmos-migration-db2";
        EvExec ["codeql"; "database"; "create"; "--language=go"; "--source-root"; ".";
                "/tmp/cosmos-migration-db2"];
        EvRemoveAll "/tmp/cosmos-migration-db2" ].
Proof.
  pose proof (runMigrationCheck_create_failure Sample.failing "." EmptyString Sample.world
                "/tmp/cosmos-migration-db2" _ (ProcessError "exit status 2")
                eq_refl eq_refl) as (Hret & Htrace & _).
  split; [|exact Htrace].
  destruct (runMigrationCheck Sample.failing "." EmptyString Sample.world) as [how w'].
  simpl in Hret. by rewrite Hret.
Defined.




(** X16.  The program itself touches no file outside its temporary
    directory: if the external commands leave the files outside the
    directory as they find them, then after [runMigrationCheck] every
    path outside the directory holds what it held before. *)
Theorem runMigrationCheck_frame sys dir customBuildCommand w dbPath w0 :
  MkdirTemp sys (TempDir sys) "cosmos-migration-db" w = ((dbPath, None), w0) →
  (∀ args fs p, Path.under dbPath p = false →
                filesAfter (exec sys args fs) !! p = fs !! p) →
  ∀ p, Path.under dbPath p = false →
       files (snd (runMigrationCheck sys dir customBuildCommand w)) !! p = files w !! p.
Proof.
  intros Hmk Hexec p Hp.
  pose proof (MkdirTemp_ok _ _ _ _ _ _ Hmk) as (_ & Hfiles & _ & _).
  assert (files w0 !! p = files w !! p) as H0.
  { rewrite Hfiles. apply lookup_insert_ne. intros ->.
    by rewrite under_self in Hp. }
  unfold runMigrationCheck. rewrite Hmk.
  destruct (checkBody sys dir customBuildCommand dbPath w0) as [how w1] eqn:Hbody.
  cbn [snd]. rewrite RemoveAll_other by done. rewrite <- H0.
  rewrite checkBody_cases in Hbody. cbv zeta in Hbody.
  destruct (runErr _).
  { injection Hbody as _ <-. simpl. by apply Hexec. }
  destruct (runAnalysis sys dbPath _) as [[report err] w2] eqn:Hrun.
  assert (files w2 !! p = files w0 !! p) as H2.
  { pose proof (runAnalysis_files sys dbPath
                  {| files := filesAfter
                                (exec sys (fst (createCommand dir customBuildCommand dbPath))
                                   (files w0));
                     stdout := stdout w0 ++ snd (createCommand dir customBuildCommand dbPath);
                     trace := trace w0
                                ++ [EvExec (fst (createCommand dir customBuildCommand dbPath))]
                  |}) as Hf.
    rewrite Hrun in Hf. simpl in Hf. rewrite Hf.
    rewrite Hexec by done. by apply Hexec. }
  destruct report as [sarif|], err as [err|]; injection Hbody as _ <-; done.
Qed.

Lemma runMigrationCheck_frame_witness :
  files (snd (runMigrationCheck Sample.failing "." EmptyString Sample.world)) !! "foo.go"
  = Some (File Sample.source)
  ∧ files (snd (runMigrationCheck Sample.failing "." EmptyString Sample.world))
      !! "/tmp/cosmos-migration-db1" = Some Dir.
Proof.
  pose proof (runMigrationCheck_frame Sample.failing "." EmptyString Sample.world
                "/tmp/cosmos-migration-db2" _ eq_refl (λ _ _ _ _, eq_refl)) as H.
  split.
  - rewrite (H "foo.go") by reflexivity. reflexivity.
  - rewrite (H "/tmp/cosmos-migration-db1") by reflexivity. reflexivity.
Defined.


(** * The command line and [main] *)

Section CommandLine.

Lemma classify_positional a :
  Str.hasPrefix "-" a = false ∨ a = "-" → Flag.classify a = Flag.Positional.
Proof.
  intros [H| ->]; [|done].
  destruct a as [|c a]; [done|]. simpl in H.
  destruct (decide ("-"%char = c)) as [<-|Hc]; [done|].
  unfold Flag.classify.
  destruct c as [[] [] [] [] [] [] [] []]; try done.
Qed.

End CommandLine.

(** X17.  The four spellings of a flag are read alike: [-dir v],
    [--dir v], [-dir=v] and [--dir=v] all set the directory to [v], and
    likewise for [-command]; [v] is taken as it is, even if it starts
    with a minus. *)
Theorem parse_spellings dir command v rest :
  Flag.parse dir command ("-dir" :: v :: rest) = Flag.parse v command rest
  ∧ Flag.parse dir command ("--dir" :: v :: rest) = Flag.parse v command rest
  ∧ Flag.parse dir command (("-dir=" +:+ v) :: rest) = Flag.parse v command rest
  ∧ Flag.parse dir command (("--dir=" +:+ v) :: rest) = Flag.parse v command rest
  ∧ Flag.parse dir command ("-command" :: v :: rest) = Flag.parse dir v rest
  ∧ Flag.parse dir command ("--command" :: v :: rest) = Flag.parse dir v rest
  ∧ Flag.parse dir command (("-command=" +:+ v) :: rest) = Flag.parse dir v rest
  ∧ Flag.parse dir command (("--command=" +:+ v) :: rest) = Flag.parse dir v rest.
Proof. repeat split; reflexivity. Qed.

(** X18.  [main] never looks at the arguments left over by the flags:
    when the first argument is not a flag — it does not start with a
    minus, or is a lone minus — the program runs as if it had no
    argument at all, on the directory [.] and without build command,
    whatever follows. *)
Theorem main_positional sys a rest w :
  Str.hasPrefix "-" a = false ∨ a = "-" →
  main sys (a :: rest) w = main sys [] w.
Proof.
  intros Ha. unfold main. simpl. by rewrite (classify_positional a Ha).
Qed.

Lemma main_positional_witness :
  main Demo.engine ["src"; "-command"; "make build"] Sample.world
  = main Demo.engine [] Sample.world.
Proof. apply main_positional. by left. Defined.

(** X19.  A failing analysis, from the command line to the exit: when
    the flags parse, the temporary directory is made and the database
    creation succeeds, and the analyze process then ends with an
    error, the program exits with status 1 after writing [Error:
    analysis failed: <the error>] to the standard error; it has
    launched the two processes and removed the directory and all below
    it, and its output is the notice and the argument list and what
    the analyze process wrote — no finding. *)
Theorem main_analysis_failure sys args w dir command rest dbPath w0 cause :
  Flag.parse "." EmptyString args = Flag.Parsed dir command rest →
  MkdirTemp sys (TempDir sys) "cosmos-migration-db" w = ((dbPath, None), w0) →
  runErr (exec sys (fst (createCommand dir command dbPath)) (files w0)) = None →
  runErr (exec sys (analyzeCommand dbPath)
            (filesAfter (exec sys (fst (createCommand dir command dbPath)) (files w0))))
  = Some cause →
  let create := fst (createCommand dir command dbPath) in
  let analyzed := exec sys (analyzeCommand dbPath) (filesAfter (exec sys create (files w0))) in
  status (main sys args w) = 1
  ∧ errorLine (main sys args w)
    = Some ("Error: analysis failed: " +:+ Error cause +:+ Str.nl)
  ∧ stdout (final (main sys args w))
    = stdout w ++ snd (createCommand dir command dbPath) ++ written analyzed
  ∧ trace (final (main sys args w))
    = trace w ++ [EvMkdir dbPath; EvExec create; EvExec (analyzeCommand dbPath);
                  EvRemoveAll dbPath]
  ∧ (∀ p, Path.under dbPath p = true → files (final (main sys args w)) !! p = None).
Proof.
  intros Hparse Hmk Hcreate Hanalyze create analyzed.
  pose proof (MkdirTemp_ok _ _ _ _ _ _ Hmk) as (_ & _ & Hout & Htrace).
  unfold main. rewrite Hparse.
  unfold runMigrationCheck. rewrite Hmk, checkBody_cases. cbv zeta.
  rewrite Hcreate, runAnalysis_cases. cbv zeta. cbn [files stdout trace].
  rewrite Hanalyze. cbn [status errorLine final].
  split; [done|]. split; [done|]. split; [|split].
  - simpl. rewrite Hout. by rewrite <- app_assoc.
  - simpl. rewrite Htrace. by rewrite <- !app_assoc.
  - intros p Hp. by apply RemoveAll_under.
Qed.

Lemma main_analysis_failure_witness :
  status (main Demo.halfway ["--dir=."] Sample.world) = 1
  ∧ errorLine (main Demo.halfway ["--dir=."] Sample.world)
    = Some ("Error: analysis failed: exit status 2" +:+ Str.nl)
  ∧ stdout (final (main Demo.halfway ["--dir=."] Sample.world))
    = [ "[codeql database create --language=go --source-root . /tmp/cosmos-migration-db2]"
          +:+ Str.nl;
        "A fatal error occurred." +:+ Str.nl ].
Proof.
  pose proof (main_analysis_failure Demo.halfway ["--dir=."] Sample.world
                "." EmptyString [] "/tmp/cosmos-migration-db2" _
                (ProcessError "exit status 2") eq_refl eq_refl eq_refl eq_refl)
    as (Hs & He & Ho & _).
  split; [exact Hs|]. split; [exact He|exact Ho].
Defined.

(** * More on the decoder *)

Section Numbers.

Import Json.

Lemma digit_pretty_N_char (m : N) :
  (m < 10)%N → digit (pretty_N_char m) = Some (Z.of_N m).
Proof.
  intros Hm.
  assert (m = 0 ∨ m = 1 ∨ m = 2 ∨ m = 3 ∨ m = 4 ∨ m = 5 ∨ m = 6 ∨ m = 7 ∨ m = 8 ∨ m = 9)%N
    as Hcases by lia.
  repeat (destruct Hcases as [->|Hcases]; [reflexivity|]). by subst.
Qed.

(** Reading digits after an accumulator. *)
Lemma digits_acc acc s :
  digits acc s
  = (λ v, acc * 10 ^ Z.of_nat (String.length s) + v) <$> digits 0 s.
Proof.
  revert acc. induction s as [|c s IH]; intros acc; simpl digits.
  - simpl. f_equal; lia.
  - destruct (digit c) as [d|]; [|done].
    rewrite (IH (10 * acc + d)), (IH (10 * 0 + d)).
    destruct (digits 0 s) as [v|]; [|done]. simpl fmap. f_equal.
    simpl String.length. rewrite Nat2Z.inj_succ, Z.pow_succ_r by lia. lia.
Qed.

(** The digits that [pretty] puts before a text read back. *)
Lemma digits_pretty_N_go (x : N) s v :
  digits 0 s = Some v →
  digits 0 (pretty_N_go x s) = Some (Z.of_N x * 10 ^ Z.of_nat (String.length s) + v).
Proof.
  revert s v. induction (N.lt_wf_0 x) as [x _ IH]; intros s v Hs.
  assert (x = 0 ∨ 0 < x)%N as [->|Hpos] by lia.
  - rewrite pretty_N_go_0, Hs. f_equal; lia.
  - rewrite pretty_N_go_step by done.
    rewrite (IH (x `div` 10)%N (N.div_lt x 10 Hpos eq_refl)
               (String (pretty_N_char (x `mod` 10)) s)
               (Z.of_N (x `mod` 10) * 10 ^ Z.of_nat (String.length s) + v)).
    + f_equal. simpl String.length.
      rewrite Nat2Z.inj_succ, Z.pow_succ_r by lia.
      rewrite (N.div_mod x 10) at 3 by done.
      rewrite N2Z.inj_add, N2Z.inj_mul. simpl Z.of_N. lia.
    + simpl digits. rewrite digit_pretty_N_char by (by apply N.mod_lt).
      rewrite digits_acc, Hs. simpl. f_equal; lia.
Qed.

Lemma digits_pretty_pos (p : positive) :
  digits 0 (pretty (N.pos p)) = Some (Z.pos p).
Proof.
  unfold pretty, pretty_N. rewrite decide_False by done.
  rewrite (digits_pretty_N_go (N.pos p) EmptyString 0 eq_refl).
  f_equal. simpl. lia.
Qed.

(** A text of digits is parsed as a number without sign. *)
Lemma ParseInt_digits s n :
  digits 0 s = Some n → s ≠ EmptyString →
  ParseInt s = if n <? 2 ^ 63 then Some n else None.
Proof.
  intros Hd Hne. destruct s as [|c s]; [done|].
  assert (c ≠ "-"%char ∧ c ≠ "+"%char) as [Hm Hp].
  { split; intros ->; simpl in Hd; discriminate. }
  unfold ParseInt. rewrite Hd.
  destruct c as [[] [] [] [] [] [] [] []]; try done.
Qed.

(** [strconv.ParseInt] reads back what [%d] writes of an [int]. *)
Lemma ParseInt_itoa n : isInt n → ParseInt (Str.itoa n) = Some n.
Proof.
  unfold isInt, Str.itoa. intros Hn. destruct n as [|p|p].
  - reflexivity.
  - change (pretty (Z.pos p)) with (pretty (N.pos p)).
    rewrite (ParseInt_digits _ (Z.pos p)).
    + by rewrite (proj2 (Z.ltb_lt _ _)) by lia.
    + apply digits_pretty_pos.
    + intros Hs. pose proof (digits_pretty_pos p) as Hd. by rewrite Hs in Hd.
  - change (pretty (Z.neg p)) with ("-" +:+ pretty (N.pos p)).
    pose proof (digits_pretty_pos p) as Hd.
    destruct (pretty (N.pos p)) as [|c s] eqn:Hs; [done|].
    change ("-" +:+ String c s) with (String "-" (String c s)).
    unfold ParseInt. rewrite Hd.
    by rewrite (proj2 (Z.leb_le _ _)) by lia.
Qed.

End Numbers.

Section RoundTrip.

Import Json.

Lemma elemsInto_map {T} (P : T → Prop) (zero : T) (elem : decoder T) (enc : T → json) xs :
  (∀ x, P x → elem (enc x) zero = (x, None)) →
  Forall P xs →
  elemsInto zero elem (map enc xs) = (xs, None).
Proof.
  intros Hdec. induction 1 as [|x xs Hx _ IH]; simpl; [done|].
  by rewrite (Hdec x Hx), IH.
Qed.

Lemma regionInto_document r v :
  regionInRange r → regionInto (Document.ofRegion r) v = (r, None).
Proof.
  intros (H1 & H2 & H3). destruct r as [line col endLine]. simpl in *.
  unfold regionInto, structInto, Document.ofRegion, membersInto.
  lazy -[intInto Str.itoa]. unfold intInto.
  by rewrite !ParseInt_itoa.
Qed.

Lemma locationInto_document l v :
  regionInRange (Region (PhysicalLocation l)) →
  locationInto (Document.ofLocation l) v = (l, None).
Proof.
  intros Hr. destruct l as [[[uri] region]]. simpl in Hr.
  unfold locationInto, structInto, Document.ofLocation, membersInto.
  lazy -[regionInto Document.ofRegion].
  by rewrite regionInto_document.
Qed.

Lemma resultInto_document r v :
  Forall (λ location, regionInRange (Region (PhysicalLocation location))) (Locations r) →
  resultInto (Document.ofResult r) v = (r, None).
Proof.
  intros Hr. destruct r as [[text] locations]. simpl in Hr.
  unfold resultInto, structInto, Document.ofResult, membersInto.
  lazy -[elemsInto locationInto Document.ofLocation map].
  by rewrite (elemsInto_map _ _ _ _ _ (λ l v, locationInto_document l _ v) Hr).
Qed.

Lemma runInto_document r v :
  Forall (λ result,
            Forall (λ location, regionInRange (Region (PhysicalLocation location)))
                   (Locations result))
         (Results r) →
  runInto (Document.ofRun r) v = (r, None).
Proof.
  intros Hr. destruct r as [results]. simpl in Hr.
  unfold runInto, structInto, Document.ofRun, membersInto.
  lazy -[elemsInto resultInto Document.ofResult map].
  by rewrite (elemsInto_map _ _ _ _ _ (λ r v, resultInto_document r _ v) Hr).
Qed.

End RoundTrip.

(** X20.  The decoder reads back the SARIF document of every report
    whose numbers are values of [int]: each field is found under its
    member name of the format although the structures declare no
    names, and runs, results and locations keep their order. *)
Theorem Unmarshal_document s :
  intsInRange s → Json.Unmarshal (Document.ofSarif s) = (s, None).
Proof.
  intros Hs. destruct s as [runs]. unfold intsInRange in Hs. simpl in Hs.
  unfold Json.Unmarshal, Json.sarifInto, Json.structInto, Document.ofSarif,
    Json.membersInto.
  lazy -[Json.elemsInto Json.runInto Document.ofRun map].
  by rewrite (elemsInto_map _ _ _ _ _ (λ r v, runInto_document r _ v) Hs).
Qed.

Lemma Unmarshal_document_witness :
  Json.Unmarshal (Document.ofSarif Sample.negative) = (Sample.negative, None).
Proof.
  apply Unmarshal_document.
  repeat constructor; vm_compute; congruence.
Defined.

(** * Colours *)

Section Plain.

Lemma app_assoc_string (a b c : string) : (a +:+ b) +:+ c = a +:+ (b +:+ c).
Proof.
  induction a as [|x a IH]; [done|].
  change ((String x a +:+ b) +:+ c) with (String x ((a +:+ b) +:+ c)).
  by rewrite IH.
Qed.

Lemma chars_app (a b : string) c :
  c ∈ String.list_ascii_of_string (a +:+ b)
  ↔ c ∈ String.list_ascii_of_string a ∨ c ∈ String.list_ascii_of_string b.
Proof.
  induction a as [|x a IH].
  - change (EmptyString +:+ b) with b. simpl. rewrite elem_of_nil. tauto.
  - change (String x a +:+ b) with (String x (a +:+ b)). simpl.
    rewrite !elem_of_cons, IH. tauto.
Qed.

Lemma plain_app a b : plain a → plain b → plain (a +:+ b).
Proof. unfold plain. rewrite chars_app. tauto. Qed.

Lemma shown_plain_app a b :
  plain a → color.shown false (a +:+ b) = a +:+ color.shown false b.
Proof.
  unfold plain. induction a as [|x a IH]; intros Ha; [done|].
  change (String x a +:+ b) with (String x (a +:+ b)).
  simpl in Ha. apply not_elem_of_cons in Ha as [Hx Ha].
  simpl. rewrite decide_False by done. by rewrite IH.
Qed.

Lemma shown_plain a : plain a → color.shown false a = a.
Proof.
  unfold plain. induction a as [|x a IH]; intros Ha; [done|].
  simpl in Ha. apply not_elem_of_cons in Ha as [Hx Ha].
  simpl. rewrite decide_False by done. by rewrite IH.
Qed.

Lemma plain_pretty_N_go (x : N) s : plain s → plain (pretty_N_go x s).
Proof.
  revert s. induction (N.lt_wf_0 x) as [x _ IH]; intros s Hs.
  assert (x = 0 ∨ 0 < x)%N as [->|Hpos] by lia.
  - by rewrite pretty_N_go_0.
  - rewrite pretty_N_go_step by done.
    apply IH; [by apply N.div_lt|].
    unfold plain. simpl. rewrite not_elem_of_cons. split; [|done].
    unfold pretty_N_char. by repeat case_match.
Qed.

Lemma plain_itoa n : plain (Str.itoa n).
Proof.
  assert (∀ p, plain (pretty (N.pos p))) as Hpos.
  { intros p. unfold pretty, pretty_N. rewrite decide_False by done.
    apply plain_pretty_N_go. unfold plain. simpl. apply not_elem_of_nil. }
  unfold Str.itoa. destruct n as [|p|p].
  - unfold plain. simpl. rewrite not_elem_of_cons. split; [done|apply not_elem_of_nil].
  - apply Hpos.
  - change (pretty (Z.neg p)) with ("-" +:+ pretty (N.pos p)).
    apply plain_app; [|apply Hpos].
    unfold plain. simpl. rewrite not_elem_of_cons. split; [done|apply not_elem_of_nil].
Qed.

Lemma plain_literal_colon : plain ":".
Proof. unfold plain. simpl. rewrite not_elem_of_cons. split; [done|apply not_elem_of_nil]. Qed.

Lemma plain_literal_colon_space : plain ": ".
Proof.
  unfold plain. simpl. rewrite !not_elem_of_cons. repeat split; try done.
  apply not_elem_of_nil.
Qed.

Lemma plain_literal_indent : plain "  ".
Proof.
  unfold plain. simpl. rewrite !not_elem_of_cons. repeat split; try done.
  apply not_elem_of_nil.
Qed.

Lemma plain_nl : plain Str.nl.
Proof. unfold plain. simpl. rewrite not_elem_of_cons. split; [done|apply not_elem_of_nil]. Qed.

(** What is shown of a coloured text is the text. *)
Lemma shown_Sprint_red s rest :
  plain s →
  color.shown false (color.Sprint false color.FgRed s +:+ rest)
  = s +:+ color.shown false rest.
Proof.
  intros Hs. unfold color.Sprint. rewrite !app_assoc_string.
  change (color.shown false (s +:+ color.escape +:+ "[" +:+ Str.itoa color.Reset
                             +:+ "m" +:+ rest)
          = s +:+ color.shown false rest).
  rewrite shown_plain_app by done. reflexivity.
Qed.

(** The lines of a file hold bytes of the file. *)
Lemma fileLines_chars data :
  Forall (λ l, ∀ c, c ∈ String.list_ascii_of_string l →
                    c ∈ String.list_ascii_of_string data)
         (fileLines data).
Proof.
  induction data as [|x data IH]; simpl; [constructor|].
  destruct (decide (x = Str.LF)) as [->|Hx].
  - constructor; [by intros c ?%elem_of_nil|].
    eapply Forall_impl; [exact IH|]. intros l Hl c Hc. right. by apply Hl.
  - destruct (fileLines data) as [|l ls].
    + constructor; [|constructor]. intros c Hc. simpl in Hc.
      apply elem_of_cons in Hc as [->|Hc]; [by left|by apply elem_of_nil in Hc].
    + apply Forall_cons in IH as [Hl Hls]. constructor.
      * intros c Hc. simpl in Hc. apply elem_of_cons in Hc as [->|Hc]; [by left|].
        right. by apply Hl.
      * eapply Forall_impl; [exact Hls|]. intros l' Hl' c Hc. right. by apply Hl'.
Qed.

(** A line read from a plain file is plain. *)
Lemma readSpecificLine_plain fs filePath targetLine code data :
  fs !! filePath = Some (File data) →
  plain data →
  readSpecificLine fs filePath targetLine = (code, None) →
  plain code.
Proof.
  intros Hf Hdata Hread. rewrite (readSpecificLine_File _ _ _ _ Hf) in Hread.
  apply readLines_success in Hread as (_ & l & Hl & -> & _).
  intros Hin. apply dropCR_chars in Hin.
  pose proof (fileLines_chars data) as Hchars.
  rewrite Forall_lookup in Hchars. by apply Hdata, (Hchars _ _ Hl).
Qed.

End Plain.

Section Shown.

Context (fs : gmap string node).

Lemma headline_shown result location :
  plain (Uri (ArtifactLocation (PhysicalLocation location))) →
  plain (Text (Message result)) →
  color.shown false (headline false result location) = headline true result location.
Proof.
  intros Huri Hmsg. unfold headline.
  rewrite (shown_plain_app _ _ Huri), (shown_plain_app _ _ plain_literal_colon).
  rewrite (shown_plain_app _ _ (plain_itoa _)), (shown_plain_app _ _ plain_literal_colon).
  rewrite (shown_plain_app _ _ (plain_itoa _)), (shown_plain_app _ _ plain_literal_colon_space).
  rewrite (shown_Sprint_red _ _ Hmsg). by rewrite (shown_plain _ plain_nl).
Qed.

Lemma snippet_shown location code :
  plain code → color.shown false (snippet location code) = snippet location code.
Proof.
  intros Hcode. apply shown_plain. unfold snippet.
  repeat apply plain_app;
    auto using plain_literal_indent, plain_itoa, plain_literal_colon_space, plain_nl.
Qed.

Lemma caret_shown location :
  color.shown false (caret false location) = caret true location.
Proof.
  unfold caret. rewrite app_assoc_string, shown_replicate_space.
  by rewrite app_assoc_string.
Qed.

(** One pass of the loop body with colours, as shown, is the pass
    without. *)
Lemma renderLocation_shown finding :
  plainFinding fs finding →
  renderLocation true fs finding
  = (map (color.shown false) (fst (renderLocation false fs finding)),
     snd (renderLocation false fs finding)).
Proof.
  destruct finding as [result location]. intros (Huri & Hmsg & Hdata). simpl in *.
  unfold renderLocation.
  destruct (sourceLine fs location) as [code [err|]] eqn:Hsrc; [done|].
  assert (plain code) as Hcode.
  { unfold sourceLine in Hsrc.
    destruct (fs !! Uri (ArtifactLocation (PhysicalLocation location)))
      as [[|data]|] eqn:Hf;
      try (unfold readSpecificLine in Hsrc; rewrite Hf in Hsrc; discriminate).
    eapply readSpecificLine_plain; [exact Hf|by apply Hdata|exact Hsrc]. }
  destruct (_ <? 0); cbn [fst snd map];
    rewrite headline_shown, snippet_shown, ?caret_shown by done; done.
Qed.

Lemma rangeOver_shown findings :
  Forall (plainFinding fs) findings →
  rangeOver findings (renderLocation true fs)
  = (map (color.shown false) (fst (rangeOver findings (renderLocation false fs))),
     snd (rangeOver findings (renderLocation false fs))).
Proof.
  induction 1 as [|p ps Hp _ IH]; [done|].
  simpl rangeOver. rewrite (renderLocation_shown p Hp), IH.
  destruct (renderLocation false fs p) as [out [[]|err|msg]]; try done.
  destruct (rangeOver ps (renderLocation false fs)) as [out' f].
  simpl. by rewrite map_app.
Qed.

End Shown.

(** X21.  Colours are presentation only.  For a report whose URIs,
    messages and source files hold no escape character, what a
    terminal shows of the coloured output is, line by line, the output
    without colours; and with or without colours the pass ends the
    same way. *)
Theorem printFindings_shown fs sarif :
  Forall (plainFinding fs) (findings sarif) →
  map (color.shown false) (fst (printFindings false fs sarif))
  = fst (printFindings true fs sarif)
  ∧ snd (printFindings false fs sarif) = snd (printFindings true fs sarif).
Proof.
  intros Hplain. rewrite !printFindings_findings, (rangeOver_shown fs _ Hplain).
  destruct (rangeOver (findings sarif) (renderLocation false fs)) as [out [[]|err|msg]];
    simpl; by rewrite ?app_nil_r, ?map_app.
Qed.

Lemma printFindings_shown_witness :
  map (color.shown false) (fst (printFindings false Sample.tree Sample.negative))
  = fst (printFindings true Sample.tree Sample.negative).
Proof.
  apply printFindings_shown.
  repeat constructor; try (vm_compute; intros H;
    repeat (apply elem_of_cons in H as [H|H]; [discriminate|]);
    by apply elem_of_nil in H).
  all: intros data [= <-]%(inj Some); vm_compute; intros H;
    repeat (apply elem_of_cons in H as [H|H]; [discriminate|]);
    by apply elem_of_nil in H.
Defined.

(** * Paths *)

Section CleanPaths.

Lemma split_slashFree e rest :
  slashFree e → Path.split (e +:+ "/" +:+ rest) = e :: Path.split rest.
Proof.
  unfold slashFree. induction e as [|c e IH]; intros He; [done|].
  change (String c e +:+ "/" +:+ rest) with (String c (e +:+ "/" +:+ rest)).
  simpl in He. apply not_elem_of_cons in He as [Hc He].
  simpl. rewrite decide_False by done. by rewrite IH.
Qed.

Lemma split_element e : slashFree e → Path.split e = [e].
Proof.
  unfold slashFree. induction e as [|c e IH]; intros He; [done|].
  simpl in He. apply not_elem_of_cons in He as [Hc He].
  simpl. rewrite decide_False by done. by rewrite IH.
Qed.

Lemma split_join elems :
  Forall slashFree elems → elems ≠ [] → Path.split (Str.join "/" elems) = elems.
Proof.
  induction 1 as [|e elems He Hrest IH]; intros Hne; [done|].
  destruct elems as [|e' elems].
  - simpl. by apply split_element.
  - change (Str.join "/" (e :: e' :: elems))
      with (e +:+ "/" +:+ Str.join "/" (e' :: elems)).
    rewrite split_slashFree by done. by rewrite IH.
Qed.

Lemma cleanElems_elements rooted stack elems :
  Forall element elems → Path.cleanElems rooted stack elems = rev elems ++ stack.
Proof.
  intros H. revert stack. induction H as [|e elems (H1 & H2 & H3 & _) _ IH]; intros stack.
  - done.
  - simpl. rewrite !decide_False by done. rewrite IH. by rewrite <- app_assoc.
Qed.

Lemma element_slashFree elems : Forall element elems → Forall slashFree elems.
Proof. intros H. eapply Forall_impl; [exact H|]. by intros e (_ & _ & _ & He). Qed.

(** A path of elements is clean already. *)
Lemma Clean_absolute elems :
  Forall element elems → elems ≠ [] → Path.Clean (absolute elems) = absolute elems.
Proof.
  intros Hel Hne. unfold Path.Clean, absolute.
  change (Str.hasPrefix "/" ("/" +:+ Str.join "/" elems)) with true.
  change (Path.split ("/" +:+ Str.join "/" elems))
    with (EmptyString :: Path.split (Str.join "/" elems)).
  rewrite split_join by (by try apply element_slashFree).
  simpl Path.cleanElems. rewrite cleanElems_elements by done.
  rewrite app_nil_r, rev_involutive.
  by rewrite decide_False.
Qed.

Lemma join_snoc elems e :
  elems ≠ [] → Str.join "/" (elems ++ [e]) = Str.join "/" elems +:+ "/" +:+ e.
Proof.
  induction elems as [|x elems IH]; intros Hne; [done|].
  destruct elems as [|y elems]; [done|].
  change (Str.join "/" ((x :: y :: elems) ++ [e]))
    with (x +:+ "/" +:+ Str.join "/" ((y :: elems) ++ [e])).
  rewrite IH by done.
  change (Str.join "/" (x :: y :: elems)) with (x +:+ "/" +:+ Str.join "/" (y :: elems)).
  by rewrite !app_assoc_string.
Qed.

Lemma absolute_snoc elems e :
  elems ≠ [] → absolute (elems ++ [e]) = absolute elems +:+ "/" +:+ e.
Proof.
  intros Hne. unfold absolute. rewrite join_snoc by done.
  by rewrite !app_assoc_string.
Qed.

(** Joining an element to a clean path appends it. *)
Lemma Join_absolute elems e :
  Forall element elems → elems ≠ [] → element e →
  Path.Join [absolute elems; e] = absolute elems +:+ "/" +:+ e.
Proof.
  intros Hel Hne He. unfold Path.Join.
  assert (filter (λ e, e ≠ EmptyString) [absolute elems; e] = [absolute elems; e]) as ->.
  { rewrite filter_cons_True by done. rewrite filter_cons_True by apply He. done. }
  change (Str.join "/" [absolute elems; e]) with (absolute elems +:+ "/" +:+ e).
  rewrite <- absolute_snoc by done.
  apply Clean_absolute.
  - apply Forall_app. split; [done|by constructor].
  - by destruct elems.
Qed.

Lemma endsWith_app c a b :
  b ≠ EmptyString → Str.endsWith c (a +:+ b) = Str.endsWith c b.
Proof.
  intros Hb. induction a as [|x a IH]; [done|].
  change (String x a +:+ b) with (String x (a +:+ b)).
  destruct (a +:+ b) as [|y s] eqn:E.
  - destruct a; [by destruct b|done].
  - simpl. simpl in IH. by rewrite <- IH.
Qed.

Lemma endsWith_slashFree e : slashFree e → Str.endsWith "/" e = false.
Proof.
  unfold slashFree. induction e as [|c e IH]; intros He; [done|].
  simpl in He. apply not_elem_of_cons in He as [Hc He].
  destruct e as [|d e].
  - simpl. apply bool_decide_eq_false. congruence.
  - change (Str.endsWith "/" (String c (String d e)))
      with (Str.endsWith "/" (String d e)).
    by apply IH.
Qed.

Lemma endsWith_absolute elems :
  Forall element elems → elems ≠ [] → Str.endsWith "/" (absolute elems) = false.
Proof.
  intros Hel Hne.
  destruct (exists_last Hne) as (front & e & ->).
  apply Forall_app in Hel as [_ He]. apply Forall_cons in He as [(He & _ & _ & Hs) _].
  destruct front as [|x front].
  - unfold absolute. simpl Str.join. rewrite endsWith_app by done.
    by apply endsWith_slashFree.
  - rewrite absolute_snoc by done.
    rewrite <- !app_assoc_string, endsWith_app by done.
    by apply endsWith_slashFree.
Qed.

(** The name [os.MkdirTemp] makes ends in one of the random parts. *)
Lemma mkdirTempLoop_name sys prefix candidates w dbPath w0 :
  mkdirTempLoop sys prefix candidates w = ((dbPath, None), w0) →
  ∃ r, r ∈ candidates ∧ dbPath = prefix +:+ r.
Proof.
  induction candidates as [|r rest IH]; simpl; [done|].
  destruct (files w !! (prefix +:+ r)).
  - intros H. destruct (IH H) as (r' & Hin & ->). exists r'. split; [by right|done].
  - destruct (mkdirError sys (prefix +:+ r)); [done|].
    intros [= <- _]. exists r. split; [by left|done].
Qed.

Lemma element_pattern r : slashFree r → element ("cosmos-migration-db" +:+ r).
Proof.
  intros Hr. repeat split; try done.
  unfold slashFree. rewrite chars_app. intros [H|H]; [|done].
  simpl in H. repeat (apply elem_of_cons in H as [H|H]; [discriminate|]).
  by apply elem_of_nil in H.
Qed.

End CleanPaths.

(** X22.  The results file lies inside the temporary directory, so
    that it is gone when [runMigrationCheck] is left.  When the
    directory for temporary files is a clean absolute path and the
    random part of the name holds no slash, the path of the results
    file is the database path, a slash and [results.json]; it lies
    below the database path; and nothing is there after the call. *)
Theorem results_inside sys elems w dbPath w0 :
  TempDir sys = absolute elems →
  elems ≠ [] →
  Forall element elems →
  Forall slashFree (random sys) →
  MkdirTemp sys (TempDir sys) "cosmos-migration-db" w = ((dbPath, None), w0) →
  Path.Join [dbPath; "results.json"] = dbPath +:+ "/results.json"
  ∧ Path.under dbPath (Path.Join [dbPath; "results.json"]) = true
  ∧ (∀ dir customBuildCommand,
       files (snd (runMigrationCheck sys dir customBuildCommand w))
         !! (dbPath +:+ "/results.json") = None).
Proof.
  intros Htmp Hne Hel Hrand Hmk.
  assert (∃ r, slashFree r ∧ dbPath = absolute (elems ++ ["cosmos-migration-db" +:+ r]))
    as (r & Hr & Hdb).
  { unfold MkdirTemp in Hmk. rewrite Htmp in Hmk.
    rewrite endsWith_absolute in Hmk by done.
    apply mkdirTempLoop_name in Hmk as (r & Hin & ->).
    exists r. split.
    - rewrite Forall_forall in Hrand. apply Hrand.
      apply elem_of_take in Hin as (i & Hi & _).
      by eapply list_elem_of_lookup_2.
    - rewrite absolute_snoc by done. by rewrite !app_assoc_string. }
  assert (Path.Join [dbPath; "results.json"] = dbPath +:+ "/results.json") as Hjoin.
  { rewrite Hdb. apply Join_absolute.
    - apply Forall_app. split; [done|]. constructor; [|done]. by apply element_pattern.
    - by destruct elems.
    - repeat split; try done. unfold slashFree. simpl.
      rewrite !not_elem_of_cons. repeat split; try done. apply not_elem_of_nil. }
  assert (Path.under dbPath (dbPath +:+ "/results.json") = true) as Hunder.
  { unfold Path.under. apply orb_true_iff. right.
    change (dbPath +:+ "/results.json") with (dbPath +:+ "/" +:+ "results.json").
    rewrite <- app_assoc_string. apply hasPrefix_app. }
  split; [done|]. split; [by rewrite Hjoin|].
  intros dir customBuildCommand. unfold runMigrationCheck. rewrite Hmk.
  destruct (checkBody sys dir customBuildCommand dbPath w0) as [how w1].
  cbn [snd]. by apply RemoveAll_under.
Qed.

Lemma results_inside_witness :
  Path.Join ["/tmp/cosmos-migration-db2"; "results.json"]
  = "/tmp/cosmos-migration-db2/results.json"
  ∧ files (snd (runMigrationCheck Demo.engine "." EmptyString Sample.world))
      !! "/tmp/cosmos-migration-db2/results.json" = None.
Proof.
  edestruct (results_inside Demo.engine ["tmp"] Sample.world
               "/tmp/cosmos-migration-db2") as (Hjoin & _ & Hgone).
  - reflexivity.
  - done.
  - repeat constructor; try done.
    unfold slashFree. simpl. rewrite !not_elem_of_cons.
    repeat split; try done. apply not_elem_of_nil.
  - repeat constructor; unfold slashFree; simpl;
      rewrite !not_elem_of_cons; repeat split; try done; apply not_elem_of_nil.
  - reflexivity.
  - split; [exact Hjoin|exact (Hgone "." EmptyString)].
Defined.
